(** * Structural design patterns: a shallow embedding of the six scripts

    The repository holds six independent Python scripts (Adapter, Bridge,
    Composite, Decorator, Facade, Flyweight).  Each script is embedded in a
    module of its own, named after the script; the properties follow in
    modules named after the script too ([FlyweightProps], ...), and those
    that span several scripts in [Scripts].

    Conventions of the embedding:
    - a Python [str] is a [string]; the scripts only hold ASCII text;
    - mutable objects live in an explicit store and are named by references
      (indices into the store), so that identity and aliasing are visible;
    - [print] appends to a [stdout] field of the store;
    - a call that may raise returns an [outcome]. *)

From Stdlib Require Import String Ascii List Permutation Lia DecimalString.
From stdpp Require Import base list strings gmap.

Open Scope string_scope.
Open Scope list_scope.

(* ===================================================================== *)
(** * Python values and effects shared by the scripts *)
(* ===================================================================== *)

Module Py.

(** The one-character string of a line feed. *)
Definition nl : string := String (ascii_of_nat 10) EmptyString.

(** The two quote characters and the backslash. *)
Definition dquote : ascii := ascii_of_nat 34.
Definition squote : ascii := ascii_of_nat 39.
Definition backslash : ascii := ascii_of_nat 92.

(** The exceptions that the scripts and the library calls they make can raise. *)
Inductive exn : Type :=
| AttributeError
| AssertionError
| KeyError
| ValueError
| TypeError
| IndexError
| RecursionError
| ReferenceError
| ExpatError
| JSONDecodeError.

#[global] Instance exn_eq_dec : EqDecision exn.
Proof. solve_decision. Defined.

(** The result of a call: a value, or a raised exception. *)
Inductive outcome (A : Type) : Type :=
| Ok (a : A)
| Raise (e : exn).
Arguments Ok {A} a.
Arguments Raise {A} e.

(** [print(s)], and [print(s, end=...)] with the empty string as end, on
    the text written so far. *)
Definition print (s : string) (out : string) : string := out +:+ s +:+ nl.
Definition print_end (s : string) (out : string) : string := out +:+ s.

(** The text made of the given lines: a line feed between one and the next. *)
Definition lines (l : list string) : string := String.concat nl l.

(** [str(n)] for a non-negative integer. *)
Definition str_of_nat (n : nat) : string := NilEmpty.string_of_uint (Nat.to_uint n).

(** Does character [c] occur in [s]? *)
Fixpoint occurs (c : ascii) (s : string) : bool :=
  match s with
  | EmptyString => false
  | String a s' => if Ascii.eqb a c then true else occurs c s'
  end.

(** [repr] of a [str]: CPython uses single quotes unless the text holds a
    single quote and no double quote; the quote in use and the backslash are
    escaped, and so are newline, carriage return and tab.  (No string of the
    scripts holds another control character.) *)
Fixpoint repr_chars (q : ascii) (s : string) : string :=
  match s with
  | EmptyString => EmptyString
  | String a s' =>
      let rest := repr_chars q s' in
      if Ascii.eqb a backslash then String backslash (String backslash rest)
      else if Ascii.eqb a q then String backslash (String q rest)
      else if Ascii.eqb a (ascii_of_nat 10) then String backslash (String "n" rest)
      else if Ascii.eqb a (ascii_of_nat 13) then String backslash (String "r" rest)
      else if Ascii.eqb a (ascii_of_nat 9) then String backslash (String "t" rest)
      else String a rest
  end.

Definition repr_str (s : string) : string :=
  let q := if occurs squote s && negb (occurs dquote s) then dquote else squote in
  String q (repr_chars q s) +:+ String q EmptyString.

(** Calls that change a state [S] and may raise: the state reached when the
    exception is raised is kept (what was printed stays printed). *)
Definition run (S A : Type) : Type := S -> outcome A * S.

Definition ret {S A : Type} (a : A) : run S A := fun s => (Ok a, s).

Definition raise {S A : Type} (e : exn) : run S A := fun s => (Raise e, s).

Definition bind {S A B : Type} (c : run S A) (k : A -> run S B) : run S B :=
  fun s =>
    match c s with
    | (Ok a, s') => k a s'
    | (Raise e, s') => (Raise e, s')
    end.

(** A statement that cannot raise. *)
Definition exec {S : Type} (f : S -> S) : run S unit := fun s => (Ok tt, f s).

(** [try: body except e: handler] *)
Definition try_except {S A : Type} (body : run S A) (e : exn) (handler : run S A) : run S A :=
  fun s =>
    match body s with
    | (Ok a, s') => (Ok a, s')
    | (Raise e', s') => if decide (e' = e) then handler s' else (Raise e', s')
    end.

Notation "x <-- c ;; k" := (bind c (fun x => k))
  (at level 100, c at next level, right associativity).
Notation "c ;;; k" := (bind c (fun _ => k))
  (at level 100, right associativity).

End Py.

(* ===================================================================== *)
(** * adapter.py *)
(* ===================================================================== *)

Module Adapter.
Import Py.

(** The Python values the script handles: [None], [str], [bytes], [list]
    and [dict] (with [str] keys, in insertion order). *)
#[warnings="-register-all"]
Inductive value : Type :=
| VNone
| VStr (s : string)
| VBytes (b : string)
| VList (l : list value)
| VDict (d : list (string * value)).

(** [isinstance(v, dict)] *)
Definition is_dict (v : value) : bool :=
  match v with VDict _ => true | _ => false end.

(** [repr(v)], which is what [print(v)] writes. *)
Fixpoint repr (v : value) : string :=
  match v with
  | VNone => "None"
  | VStr s => repr_str s
  | VBytes b => "b" +:+ repr_str b
  | VList l => "[" +:+ String.concat ", " (map repr l) +:+ "]"
  | VDict d =>
      "{" +:+ String.concat ", " (map (fun kv => repr_str (fst kv) +:+ ": " +:+ repr (snd kv)) d)
          +:+ "}"
  end.

(** ** Dictionaries under construction *)

Fixpoint assoc (key : string) (d : list (string * value)) : option value :=
  match d with
  | [] => None
  | (k, v) :: d' => if String.eqb key k then Some v else assoc key d'
  end.

(** [d[key] = v]: in place when the key is present, at the end otherwise. *)
Fixpoint assign (key : string) (v : value) (d : list (string * value)) : list (string * value) :=
  match d with
  | [] => [(key, v)]
  | (k, v') :: d' => if String.eqb key k then (k, v) :: d' else (k, v') :: assign key v d'
  end.

(** ** The XML-to-dict conversion library *)

(** Modelled from the spec: the generic XML-to-dict conversion library that
    the Adapter calls, [xmltodict.parse], is third-party code and not part
    of the repository's sources.  The model follows the library's SAX
    handler ([startElement], [characters], [endElement], [push_data]) with
    its default options (whitespace stripped, text key #text, no forced
    lists) on the documents made of start tags, end tags and character
    data; every other input (attributes, entities, comments, ...), well
    formed or not, is answered [None]. *)
Inductive event : Type :=
| StartElement (name : string)
| EndElement (name : string)
| Characters (data : string).

Definition is_name_start (c : ascii) : bool :=
  let n := nat_of_ascii c in
  ((65 <=? n) && (n <=? 90) || (97 <=? n) && (n <=? 122) || (n =? 95) || (n =? 58))%nat.

Definition is_name_char (c : ascii) : bool :=
  let n := nat_of_ascii c in
  (is_name_start c || (48 <=? n) && (n <=? 57) || (n =? 45) || (n =? 46))%nat.

Fixpoint all_chars (p : ascii -> bool) (s : string) : bool :=
  match s with
  | EmptyString => true
  | String c s' => p c && all_chars p s'
  end.

Definition valid_name (s : string) : bool :=
  match s with
  | EmptyString => false
  | String c s' => is_name_start c && all_chars is_name_char s'
  end.

Definition tag_event (t : string) : option event :=
  match t with
  | String c name =>
      if Ascii.eqb c "/" then (if valid_name name then Some (EndElement name) else None)
      else if valid_name t then Some (StartElement t) else None
  | EmptyString => None
  end.

Definition flush (acc : string) (es : list event) : list event :=
  match acc with
  | EmptyString => es
  | _ => Characters acc :: es
  end.

(** Where the scanner stands: in character data or inside a tag, with what
    it has read of either. *)
Inductive mode : Type :=
| InText (acc : string)
| InTag (acc : string).

Fixpoint scan (m : mode) (s : string) : option (list event) :=
  match s with
  | EmptyString =>
      match m with
      | InText acc => Some (flush acc [])
      | InTag _ => None
      end
  | String c s' =>
      match m with
      | InText acc =>
          if Ascii.eqb c "<" then option_map (flush acc) (scan (InTag "") s')
          else if Ascii.eqb c "&" then None
          else scan (InText (acc +:+ String c "")) s'
      | InTag acc =>
          if Ascii.eqb c ">" then
            match tag_event acc with
            | Some e => option_map (cons e) (scan (InText "") s')
            | None => None
            end
          else scan (InTag (acc +:+ String c "")) s'
      end
  end.

(** [str.isspace] on an ASCII character, and [str.strip]. *)
Definition isspace (c : ascii) : bool :=
  let n := nat_of_ascii c in
  ((9 <=? n) && (n <=? 13) || (28 <=? n) && (n <=? 32))%nat.

Fixpoint lstrip (s : string) : string :=
  match s with
  | EmptyString => EmptyString
  | String c s' => if isspace c then lstrip s' else s
  end.

Fixpoint rstrip (s : string) : string :=
  match s with
  | EmptyString => EmptyString
  | String c s' =>
      match rstrip s' with
      | EmptyString => if isspace c then EmptyString else String c EmptyString
      | t => String c t
      end
  end.

Definition strip (s : string) : string := rstrip (lstrip s).

(** The handler's fields: the names of the open elements, the item and the
    character data of the element being read, and those of the elements
    around it; [closed] tells that the document element has ended. *)
Record handler : Type := {
  path : list string;
  item : option (list (string * value));
  data : list string;
  stack : list (option (list (string * value)) * list string);
  closed : bool
}.

Definition new_handler : handler :=
  {| path := []; item := None; data := []; stack := []; closed := false |}.

(** [push_data]: a key met again turns its value into a list. *)
Definition push_data (it : option (list (string * value))) (key : string) (v : value)
    : list (string * value) :=
  let d := match it with Some d => d | None => [] end in
  match assoc key d with
  | Some (VList l) => assign key (VList (l ++ [v])) d
  | Some old => assign key (VList [old; v]) d
  | None => assign key v d
  end.

Definition startElement (name : string) (h : handler) : option handler :=
  if closed h then None
  else Some {| path := name :: path h;
               item := None;
               data := [];
               stack := (item h, data h) :: stack h;
               closed := false |}.

Definition characters (s : string) (h : handler) : option handler :=
  match path h with
  | [] => if all_chars isspace s then Some h else None
  | _ => Some {| path := path h; item := item h; data := data h ++ [s];
                 stack := stack h; closed := closed h |}
  end.

Definition endElement (name : string) (h : handler) : option handler :=
  match path h, stack h with
  | open :: outer, (item_up, data_up) :: stack_up =>
      if negb (String.eqb open name) then None
      else
        let text :=
          match data h with
          | [] => None
          | chunks =>
              match String.concat "" chunks with
              | EmptyString => Some EmptyString
              | joined =>
                  match strip joined with
                  | EmptyString => None
                  | stripped => Some stripped
                  end
              end
          end in
        let pushed :=
          match item h with
          | Some d =>
              let d' :=
                match text with
                | Some (String c t) => push_data (Some d) "#text" (VStr (String c t))
                | _ => d
                end in
              push_data item_up name (VDict d')
          | None =>
              push_data item_up name
                (match text with Some t => VStr t | None => VNone end)
          end in
        Some {| path := outer; item := Some pushed; data := data_up;
                stack := stack_up;
                closed := match outer with [] => true | _ => false end |}
  | _, _ => None
  end.

Definition handle (e : event) (h : handler) : option handler :=
  match e with
  | StartElement name => startElement name h
  | EndElement name => endElement name h
  | Characters s => characters s h
  end.

Fixpoint handle_all (es : list event) (h : handler) : option handler :=
  match es with
  | [] => Some h
  | e :: es' =>
      match handle e h with
      | Some h' => handle_all es' h'
      | None => None
      end
  end.

Definition xmltodict_parse (xml : string) : option value :=
  match scan (InText "") xml with
  | Some es =>
      match handle_all es new_handler with
      | Some h =>
          match closed h, item h with
          | true, Some d => Some (VDict d)
          | _, _ => None
          end
      | None => None
      end
  | None => None
  end.

(** ** The JSON library *)

(** Modelled from the spec: [json.dumps] and [json.loads] belong to
    Python's standard library, not to the repository's sources.  The model
    writes and reads [None], strings, lists and dictionaries over ASCII
    text with the default separators; [bytes] are not serialisable, and
    numbers and booleans, which the value type does not hold, are not
    read. *)
Definition hex_digit (n : nat) : ascii :=
  ascii_of_nat (if (n <? 10)%nat then 48 + n else 87 + n).

Fixpoint dumps_chars (s : string) : string :=
  match s with
  | EmptyString => EmptyString
  | String c s' =>
      let n := nat_of_ascii c in
      let rest := dumps_chars s' in
      if Ascii.eqb c dquote then String backslash (String dquote rest)
      else if Ascii.eqb c backslash then String backslash (String backslash rest)
      else if (n =? 10)%nat then String backslash (String "n" rest)
      else if (n =? 13)%nat then String backslash (String "r" rest)
      else if (n =? 9)%nat then String backslash (String "t" rest)
      else if (n =? 8)%nat then String backslash (String "b" rest)
      else if (n =? 12)%nat then String backslash (String "f" rest)
      else if ((n <? 32) || (126 <? n))%nat then
        String backslash (String "u" (String "0" (String "0"
          (String (hex_digit (n / 16)) (String (hex_digit (n mod 16)) rest)))))
      else String c rest
  end.

Definition dumps_str (s : string) : string :=
  String dquote (dumps_chars s) +:+ String dquote EmptyString.

(** [json.dumps]; [None] stands for the [TypeError] on [bytes]. *)
Fixpoint json_dumps (v : value) : option string :=
  match v with
  | VNone => Some "null"
  | VStr s => Some (dumps_str s)
  | VBytes _ => None
  | VList l =>
      option_map (String.append "[")
      ((fix items (l : list value) (first : bool) : option string :=
         match l with
         | [] => Some "]"
         | x :: l' =>
             match json_dumps x, items l' false with
             | Some sx, Some sl => Some ((if first then "" else ", ") +:+ sx +:+ sl)
             | _, _ => None
             end
         end) l true)
  | VDict d =>
      option_map (String.append "{")
      ((fix members (d : list (string * value)) (first : bool) : option string :=
         match d with
         | [] => Some "}"
         | (k, x) :: d' =>
             match json_dumps x, members d' false with
             | Some sx, Some sd =>
                 Some ((if first then "" else ", ") +:+ dumps_str k +:+ ": " +:+ sx +:+ sd)
             | _, _ => None
             end
         end) d true)
  end.

Fixpoint skip_ws (s : string) : string :=
  match s with
  | String c s' =>
      if ((nat_of_ascii c =? 32) || (nat_of_ascii c =? 10) ||
          (nat_of_ascii c =? 13) || (nat_of_ascii c =? 9))%nat
      then skip_ws s' else s
  | EmptyString => EmptyString
  end.

Definition hex_value (c : ascii) : option nat :=
  let n := nat_of_ascii c in
  if ((48 <=? n) && (n <=? 57))%nat then Some (n - 48)
  else if ((97 <=? n) && (n <=? 102))%nat then Some (n - 87)
  else if ((65 <=? n) && (n <=? 70))%nat then Some (n - 55)
  else None.

(** The characters of a string literal after its opening quote, and what
    follows its closing quote. *)
Fixpoint loads_chars (s : string) : option (string * string) :=
  match s with
  | EmptyString => None
  | String c s' =>
      if Ascii.eqb c dquote then Some (EmptyString, s')
      else if (nat_of_ascii c <? 32)%nat then None
      else if Ascii.eqb c backslash then
        match s' with
        | String e s'' =>
            let unescaped (a : ascii) (rest : string) :=
              match loads_chars rest with
              | Some (t, r) => Some (String a t, r)
              | None => None
              end in
            if Ascii.eqb e dquote then unescaped dquote s''
            else if Ascii.eqb e backslash then unescaped backslash s''
            else if Ascii.eqb e "/" then unescaped "/"%char s''
            else if Ascii.eqb e "n" then unescaped (ascii_of_nat 10) s''
            else if Ascii.eqb e "r" then unescaped (ascii_of_nat 13) s''
            else if Ascii.eqb e "t" then unescaped (ascii_of_nat 9) s''
            else if Ascii.eqb e "b" then unescaped (ascii_of_nat 8) s''
            else if Ascii.eqb e "f" then unescaped (ascii_of_nat 12) s''
            else if Ascii.eqb e "u" then
              match s'' with
              | String h1 (String h2 (String h3 (String h4 rest))) =>
                  match hex_value h1, hex_value h2, hex_value h3, hex_value h4 with
                  | Some 0, Some 0, Some a, Some b =>
                      if (a <? 8)%nat then unescaped (ascii_of_nat (16 * a + b)) rest
                      else None
                  | _, _, _, _ => None
                  end
              | _ => None
              end
            else None
        | EmptyString => None
        end
      else
        match loads_chars s' with
        | Some (t, r) => Some (String c t, r)
        | None => None
        end
  end.

(** A value at the head of the text, and the text after it.  [fuel] bounds
    the number of values and separators read; the length of the text
    suffices. *)
Fixpoint loads_value (fuel : nat) (s : string) : option (value * string) :=
  match fuel with
  | O => None
  | S fuel' =>
      match skip_ws s with
      | String "n" (String "u" (String "l" (String "l" r))) => Some (VNone, r)
      | String c r =>
          if Ascii.eqb c dquote then
            match loads_chars r with
            | Some (t, r') => Some (VStr t, r')
            | None => None
            end
          else if Ascii.eqb c "[" then
            match skip_ws r with
            | String "]" r' => Some (VList [], r')
            | _ => loads_elements fuel' [] r
            end
          else if Ascii.eqb c "{" then
            match skip_ws r with
            | String "}" r' => Some (VDict [], r')
            | _ => loads_members fuel' [] r
            end
          else None
      | EmptyString => None
      end
  end
with loads_elements (fuel : nat) (acc : list value) (s : string) : option (value * string) :=
  match fuel with
  | O => None
  | S fuel' =>
      match loads_value fuel' s with
      | Some (v, r) =>
          match skip_ws r with
          | String "," r' => loads_elements fuel' (acc ++ [v]) r'
          | String "]" r' => Some (VList (acc ++ [v]), r')
          | _ => None
          end
      | None => None
      end
  end
with loads_members (fuel : nat) (acc : list (string * value)) (s : string)
    : option (value * string) :=
  match fuel with
  | O => None
  | S fuel' =>
      match skip_ws s with
      | String q r =>
          if Ascii.eqb q dquote then
            match loads_chars r with
            | Some (k, r1) =>
                match skip_ws r1 with
                | String ":" r2 =>
                    match loads_value fuel' r2 with
                    | Some (v, r3) =>
                        match skip_ws r3 with
                        | String "," r4 => loads_members fuel' (assign k v acc) r4
                        | String "}" r4 => Some (VDict (assign k v acc), r4)
                        | _ => None
                        end
                    | None => None
                    end
                | _ => None
                end
            | None => None
            end
          else None
      | EmptyString => None
      end
  end.

(** [json.loads]; [None] stands for [JSONDecodeError]. *)
Definition json_loads (s : string) : option value :=
  match loads_value (S (String.length s)) s with
  | Some (v, r) =>
      match skip_ws r with
      | EmptyString => Some v
      | _ => None
      end
  | None => None
  end.

(** ** The classes of the script *)

(** Instances of the three classes hold no attribute: an instance is known
    by its class, and attribute lookup walks the class's method resolution
    order. *)
Inductive class : Type := Target | Adaptee | Adapter.

Inductive method : Type := request | specific_request.

(** [class Adapter(Target, Adaptee)] *)
Definition mro (c : class) : list class :=
  match c with
  | Target => [Target]
  | Adaptee => [Adaptee]
  | Adapter => [Adapter; Target; Adaptee]
  end.

(** The methods a class body defines. *)
Definition defines (c : class) (m : method) : bool :=
  match c, m with
  | Target, request => true
  | Adaptee, specific_request => true
  | Adapter, request => true
  | _, _ => false
  end.

(** The class whose definition [self.m] finds, if any. *)
Definition resolve (self : class) (m : method) : option class :=
  List.find (fun c => defines c m) (mro self).

(** [Target.request] *)
Definition Target_request : value :=
  VDict [("json_data", VDict [("some_critical_data", VStr "very_much_business_value")])].

(** [Adaptee.specific_request] *)
Definition Adaptee_specific_request : value :=
  VBytes "<xml_data><some_critical_data>very_much_business_value</some_critical_data></xml_data>".

(** [self.specific_request()] *)
Definition call_specific_request (self : class) : outcome value :=
  match resolve self specific_request with
  | Some _ => Ok Adaptee_specific_request
  | None => Raise AttributeError
  end.

(** [Adapter.request]:
    [json.loads(json.dumps(xmltodict.parse(self.specific_request())))] *)
Definition Adapter_request (self : class) : outcome value :=
  match call_specific_request self with
  | Ok (VBytes xml) =>
      match xmltodict_parse xml with
      | Some parsed =>
          match json_dumps parsed with
          | Some text =>
              match json_loads text with
              | Some v => Ok v
              | None => Raise JSONDecodeError
              end
          | None => Raise TypeError
          end
      | None => Raise ExpatError
      end
  | Ok _ => Raise TypeError
  | Raise e => Raise e
  end.

(** [self.request()] *)
Definition call_request (self : class) : outcome value :=
  match resolve self request with
  | Some Adapter => Adapter_request self
  | Some _ => Ok Target_request
  | None => Raise AttributeError
  end.

(** [client_code]; the state is the text printed so far. *)
Definition client_code (target : class) : run string unit :=
  data <-- (fun out => (call_request target, out)) ;;
  if is_dict data then exec (print_end (repr data)) else raise AssertionError.

(** The [__main__] block. *)
Definition main : run string unit :=
  exec (print "Client works fine with Target interface:") ;;;
  client_code Target ;;;
  exec (print nl) ;;;
  exec (print "Client could not work with Adaptee interface:") ;;;
  try_except (client_code Adaptee) AttributeError
    (exec (print_end "Adaptee doesn't have 'request' method")) ;;;
  exec (print nl) ;;;
  exec (print "But client could work with Adaptee service using Adapter:") ;;;
  client_code Adapter.

End Adapter.

(* ===================================================================== *)
(** * bridge.py *)
(* ===================================================================== *)

Module Bridge.
Import Py.

(** The generator behind [random.choices]: what the script observes of it
    is, for a population of [n] elements, the index [floor(random() * n)]
    of each draw.  A generator is any state from which such draws can be
    made; the index is below [n]. *)
Class Random (G : Type) : Type := {
  below : nat -> G -> nat * G;
  below_lt : forall (n : nat) (g : G), 0 < n -> fst (below n g) < n
}.

(** A run in which the draws are scripted: the generator hands out the
    indices of a list, reduced below [n], and then zeros. *)
Definition scripted_below (n : nat) (g : list nat) : nat * list nat :=
  match g with
  | [] => (0, [])
  | d :: g' => (d mod n, g')
  end.

#[global] Program Instance scripted : Random (list nat) := {| below := scripted_below |}.
Next Obligation.
  intros n [|d g] Hn; simpl; [exact Hn | apply Nat.mod_upper_bound; lia].
Qed.

(** [string.ascii_uppercase + string.digits] *)
Definition ascii_uppercase : string := "ABCDEFGHIJKLMNOPQRSTUVWXYZ".
Definition digits : string := "0123456789".

Section WithGenerator.
Context {G : Type} `{Random G}.

(** [random.choices(population, k=k)], joined into a string:
    [population[floor(random() * n)]] for each of the [k] draws. *)
Fixpoint choices (population : string) (k : nat) : run G string :=
  match k with
  | O => ret ""
  | S k' =>
      fun g =>
        let (i, g') := below (String.length population) g in
        match String.get i population with
        | Some c => (c' <-- choices population k' ;; ret (String c c')) g'
        | None => (Raise IndexError, g')
        end
  end.

(** The implementations; an instance holds no attribute and is known by its
    class. *)
Inductive APIImplementation : Type :=
| CloudAPIImplementation
| ExternalAPIImplementation.

(** [self.__class__.__name__] *)
Definition class_name (self : APIImplementation) : string :=
  match self with
  | CloudAPIImplementation => "CloudAPIImplementation"
  | ExternalAPIImplementation => "ExternalAPIImplementation"
  end.

(** [get_user]: the tuple returned, as the list of its components. *)
Definition get_user (self : APIImplementation) : run G (list string) :=
  match self with
  | CloudAPIImplementation => ret ["CloudUser"; class_name self]
  | ExternalAPIImplementation =>
      token <-- choices (ascii_uppercase +:+ digits) 6 ;;
      ret ["ExternalUser"; class_name self; token]
  end.

(** [login]; unpacking a tuple of another length raises [ValueError]. *)
Definition login (self : APIImplementation) : run G string :=
  match self with
  | CloudAPIImplementation =>
      t <-- get_user self ;;
      match t with
      | [user; role] =>
          ret ("Logged to cloud platform as user " +:+ user +:+ " with role " +:+ role)
      | _ => raise ValueError
      end
  | ExternalAPIImplementation =>
      t <-- get_user self ;;
      match t with
      | [user; role; token] =>
          ret ("Logged to cloud platform via external API token " +:+ token +:+
               " as " +:+ user +:+ " with role " +:+ role)
      | _ => raise ValueError
      end
  end.

(** [class AbstractAPI] *)
Record AbstractAPI : Type := { implementation : APIImplementation }.

Definition authenticate (self : AbstractAPI) : run G string :=
  login (implementation self).

(** The state of a run: the generator and the text printed so far. *)
Definition client_code (api_abstraction : AbstractAPI) : run (G * string) unit :=
  fun w =>
    match authenticate api_abstraction (fst w) with
    | (Ok s, g) => (Ok tt, (g, print_end s (snd w)))
    | (Raise e, g) => (Raise e, (g, snd w))
    end.

Definition main : run (G * string) unit :=
  client_code {| implementation := CloudAPIImplementation |} ;;;
  exec (fun w => (fst w, print nl (snd w))) ;;;
  client_code {| implementation := ExternalAPIImplementation |}.

End WithGenerator.

End Bridge.

(* ===================================================================== *)
(** * composite.py *)
(* ===================================================================== *)

Module Composite.
Import Py.

(** References to [Loader] objects: indices into the heap. *)
Definition ref : Type := nat.

(** The two concrete classes with the attributes their instances hold.
    [_parent] is absent until the [parent] setter runs ([None]); once set it
    holds Python's [None] ([Some None]) or a loader ([Some (Some r)]).
    [_children] is the cluster's list, held by reference to its elements. *)
Inductive Loader : Type :=
| LoadNode (name : string) (_parent : option (option ref))
| LoadCluster (name : string) (_parent : option (option ref)) (_children : list ref).

Abbreviation heap := (list Loader).

(** [LoadNode(name)] and [LoadCluster(name)] *)
Definition new_LoadNode (name : string) (h : heap) : ref * heap :=
  (length h, h ++ [LoadNode name None]).

Definition new_LoadCluster (name : string) (h : heap) : ref * heap :=
  (length h, h ++ [LoadCluster name None []]).

(** The [parent] setter: [component.parent = p] assigns [_parent] and
    nothing else. *)
Definition with_parent (p : option ref) (o : Loader) : Loader :=
  match o with
  | LoadNode name _ => LoadNode name (Some p)
  | LoadCluster name _ children => LoadCluster name (Some p) children
  end.

Definition set_parent (component : ref) (p : option ref) (h : heap) : heap :=
  match h !! component with
  | Some o => <[component := with_parent p o]> h
  | None => h
  end.

(** The [parent] getter, which raises [AttributeError] while [_parent] is
    absent. *)
Definition parent (self : ref) (h : heap) : outcome (option ref) :=
  match h !! self with
  | Some (LoadNode _ (Some p)) | Some (LoadCluster _ (Some p) _) => Ok p
  | Some _ => Raise AttributeError
  | None => Raise ReferenceError
  end.

(** [list.remove]: the first occurrence goes; [None] when there is none
    (Python raises [ValueError]).  Loaders define no [__eq__], so elements
    are compared by identity. *)
Fixpoint list_remove (x : ref) (l : list ref) : option (list ref) :=
  match l with
  | [] => None
  | y :: l' =>
      if decide (y = x) then Some l'
      else option_map (cons y) (list_remove x l')
  end.

(** [add_node]: [Loader]'s body is [pass], which [LoadNode] inherits;
    [LoadCluster] overrides it.  A reference that names no object of the heap
    is answered [ReferenceError]; no run of the script makes one. *)
Definition add_node (self component : ref) : run heap unit :=
  fun h =>
    match h !! self with
    | Some (LoadNode _ _) => (Ok tt, h)
    | Some (LoadCluster name p children) =>
        let h1 := <[self := LoadCluster name p (children ++ [component])]> h in
        (Ok tt, set_parent component (Some self) h1)
    | None => (Raise ReferenceError, h)
    end.

(** [remove_node] *)
Definition remove_node (self component : ref) : run heap unit :=
  fun h =>
    match h !! self with
    | Some (LoadNode _ _) => (Ok tt, h)
    | Some (LoadCluster name p children) =>
        match list_remove component children with
        | Some children' =>
            let h1 := <[self := LoadCluster name p children']> h in
            (Ok tt, set_parent component None h1)
        | None => (Raise ValueError, h)
        end
    | None => (Raise ReferenceError, h)
    end.

(** [is_composite] *)
Definition is_composite (self : ref) (h : heap) : outcome bool :=
  match h !! self with
  | Some (LoadNode _ _) => Ok false
  | Some (LoadCluster _ _ _) => Ok true
  | None => Raise ReferenceError
  end.

(** The results of the calls [f child] for each child in turn, up to the
    first that raises. *)
Fixpoint collect (f : ref -> outcome string) (children : list ref) : outcome (list string) :=
  match children with
  | [] => Ok []
  | c :: children' =>
      match f c with
      | Ok s =>
          match collect f children' with
          | Ok results => Ok (s :: results)
          | Raise e => Raise e
          end
      | Raise e => Raise e
      end
  end.

(** [start_load] and [stop_load] read the heap and change nothing.  A
    cluster calls its children, and they theirs: [depth] is the number of
    nested calls the interpreter allows before it raises [RecursionError]
    (a cluster can be made its own descendant). *)
Fixpoint start_load (depth : nat) (h : heap) (self : ref) : outcome string :=
  match depth with
  | O => Raise RecursionError
  | S depth' =>
      match h !! self with
      | Some (LoadNode name _) => Ok (name +:+ " started load." +:+ nl)
      | Some (LoadCluster name _ children) =>
          match collect (start_load depth' h) children with
          | Ok results =>
              Ok ("Cluster " +:+ name +:+ " started load:" +:+ nl +:+ String.concat "" results)
          | Raise e => Raise e
          end
      | None => Raise ReferenceError
      end
  end.

Fixpoint stop_load (depth : nat) (h : heap) (self : ref) : outcome string :=
  match depth with
  | O => Raise RecursionError
  | S depth' =>
      match h !! self with
      | Some (LoadNode name _) => Ok (name +:+ " stopped load." +:+ nl)
      | Some (LoadCluster name _ children) =>
          match collect (stop_load depth' h) children with
          | Ok results =>
              Ok ("Cluster " +:+ name +:+ " stopped load:" +:+ nl +:+ String.concat "" results)
          | Raise e => Raise e
          end
      | None => Raise ReferenceError
      end
  end.

(** A leaf and an empty cluster, as [main] has them before [client_code2]. *)
Definition leaf_and_cluster : heap :=
  [LoadNode "Simple load node" None; LoadCluster "Master Loader" None []].

(** Every child of every cluster of the heap is an object of the heap. *)
Definition closed (h : heap) : Prop :=
  forall (r : ref) (name : string) (p : option (option ref)) (children : list ref) (c : ref),
    h !! r = Some (LoadCluster name p children) -> c ∈ children -> is_Some (h !! c).

(** A measure that goes down from every cluster to each of its children:
    with one, no cluster is among its own descendants. *)
Definition ranked (rank : ref -> nat) (h : heap) : Prop :=
  forall (r : ref) (name : string) (p : option (option ref)) (children : list ref) (c : ref),
    h !! r = Some (LoadCluster name p children) -> c ∈ children -> rank c < rank r.

(** A cluster that holds a leaf, and a cluster that was added to itself. *)
Definition cluster_of_leaf : heap :=
  [LoadNode "Simple load node" (Some (Some 1)); LoadCluster "Master Loader" None [0]].

Definition cluster_of_itself : heap :=
  [LoadCluster "Master Loader" (Some (Some 0)) [0]].

(** The state of a run: the heap and the text printed so far. *)
Record world : Type := { objects : heap; stdout : string }.

Definition on_heap {A : Type} (c : run heap A) : run world A :=
  fun w =>
    let (r, h) := c (objects w) in
    (r, {| objects := h; stdout := stdout w |}).

Definition read_heap {A : Type} (f : heap -> outcome A) : run world A :=
  fun w => (f (objects w), w).

Definition say (s : string) : run world unit :=
  exec (fun w => {| objects := objects w; stdout := print s (stdout w) |}).

(** CPython's default recursion limit. *)
Definition recursion_limit : nat := 1000.

(** [client_code] and [client_code2] *)
Definition client_code (loader : ref) : run world unit :=
  started <-- read_heap (fun h => start_load recursion_limit h loader) ;;
  say started ;;;
  stopped <-- read_heap (fun h => stop_load recursion_limit h loader) ;;
  say stopped.

Definition client_code2 (loader1 loader2 : ref) : run world unit :=
  composite <-- read_heap (is_composite loader1) ;;
  (if composite : bool then on_heap (add_node loader1 loader2) else ret tt) ;;;
  started <-- read_heap (fun h => start_load recursion_limit h loader1) ;;
  say started ;;;
  stopped <-- read_heap (fun h => stop_load recursion_limit h loader1) ;;
  say stopped.

Definition construct (new : heap -> ref * heap) : run world ref :=
  on_heap (fun h => let (r, h') := new h in (Ok r, h')).

(** The [__main__] block. *)
Definition main : run world unit :=
  simple_loader <-- construct (new_LoadNode "Simple load node") ;;
  client_code simple_loader ;;;
  master_loader <-- construct (new_LoadCluster "Master Loader") ;;
  client_code2 master_loader simple_loader ;;;
  session_load_cluster <-- construct (new_LoadCluster "Session load cluster") ;;
  faults_load_cluster <-- construct (new_LoadCluster "Faults load cluster") ;;
  n1 <-- construct (new_LoadNode "Session load node 1") ;;
  on_heap (add_node session_load_cluster n1) ;;;
  n2 <-- construct (new_LoadNode "Session load node 2") ;;
  on_heap (add_node session_load_cluster n2) ;;;
  n3 <-- construct (new_LoadNode "Faults load node 1") ;;
  on_heap (add_node faults_load_cluster n3) ;;;
  n4 <-- construct (new_LoadNode "Faults load node 2") ;;
  on_heap (add_node faults_load_cluster n4) ;;;
  on_heap (add_node master_loader session_load_cluster) ;;;
  on_heap (add_node master_loader faults_load_cluster) ;;;
  first <-- read_heap (fun h => start_load recursion_limit h master_loader) ;;
  say first ;;;
  second <-- read_heap (fun h => start_load recursion_limit h master_loader) ;;
  say second.

End Composite.

(* ===================================================================== *)
(** * decorator.py *)
(* ===================================================================== *)

Module Decorator.
Import Py.

(** The reporters.  A decorator holds a reference to the reporter it wraps,
    set when it is constructed and assigned nowhere else, so a reporter is
    the finite chain of its wrappers.  The one attribute that a method
    assigns is [_mqtt_client] of an [MQTTReporterDecorator]; each such
    object is known by an identity [id], under which the store holds the
    attribute. *)
Inductive DataReporter : Type :=
| BasicSessionDataReporter
| BasicReporterDecorator (_reporter : DataReporter)
| ShadowReporterDecorator (_reporter : DataReporter)
| MQTTReporterDecorator (id : nat) (_reporter : DataReporter).

(** The instance attributes [_mqtt_client] assigned so far, by object. *)
Abbreviation store := (gmap nat string).

(** [self._mqtt_client]: the instance's attribute when it has one, else the
    class attribute, which is [None]. *)
Definition _mqtt_client (id : nat) (st : store) : option string := st !! id.

Definition setup_mqtt_client (id : nat) (st : store) : string * store :=
  ("MQTT Client is set up.", <[id := "MQTT Client up"]> st).

Definition teardown_mqtt_client (id : nat) (st : store) : string * store :=
  ("MQTT Client is teared down.", <[id := "MQTT Client down"]> st).

(** [report_data], class by class. *)
Fixpoint report_data (self : DataReporter) (st : store) : string * store :=
  match self with
  | BasicSessionDataReporter =>
      ("I'm reporting basic charging session data to device' shadow", st)
  | BasicReporterDecorator r => report_data r st
  | ShadowReporterDecorator r =>
      let (s, st') := report_data r st in
      (s +:+ " and added meter values to device' shadow", st')
  | MQTTReporterDecorator id r =>
      let st1 := snd (setup_mqtt_client id st) in
      let (s, st2) := report_data r st1 in
      let reported := s +:+ " and sent meter values to MQTT topic" in
      let st3 := snd (teardown_mqtt_client id st2) in
      (reported, st3)
  end.

(** The identities of the MQTT decorators of a chain, outermost first. *)
Fixpoint mqtt_ids (self : DataReporter) : list nat :=
  match self with
  | BasicSessionDataReporter => []
  | BasicReporterDecorator r => mqtt_ids r
  | ShadowReporterDecorator r => mqtt_ids r
  | MQTTReporterDecorator id r => id :: mqtt_ids r
  end.

(** The state of a run: the store and the text printed so far. *)
Definition client_code (component : DataReporter) (w : store * string) : store * string :=
  let (s, st) := report_data component (fst w) in
  (st, print_end ("RESULT: " +:+ s) (snd w)).

Definition say (s : string) (w : store * string) : store * string :=
  (fst w, print s (snd w)).

(** The [__main__] block; the one MQTT decorator it builds has identity 0. *)
Definition main (w : store * string) : store * string :=
  let just_basic_data := BasicSessionDataReporter in
  let w := say "Client: I've got a simple component:" w in
  let w := client_code just_basic_data w in
  let w := say nl w in
  let with_meter_values_to_shadow := ShadowReporterDecorator just_basic_data in
  let with_meter_values_to_mqtt := MQTTReporterDecorator 0 with_meter_values_to_shadow in
  let w := say "Client: Now I've got a decorated component:" w in
  client_code with_meter_values_to_mqtt w.

End Decorator.

(* ===================================================================== *)
(** * facade.py *)
(* ===================================================================== *)

Module Facade.
Import Py.

(** The subsystems: their methods are static and their instances hold
    nothing. *)
Inductive DbSubsystem : Type := DbSubsystem_instance.
Inductive IoTSubsystem : Type := IoTSubsystem_instance.

Definition check_charger_in_shadow_table : string := "Charger got to shadow table!" +:+ nl.
Definition check_charger_in_cloud_table : string := "Charger got to cloud table!" +:+ nl.
Definition check_charger_in_es : string := "Charger got to UI!" +:+ nl.
Definition create_thing : string := "Charger's thing is created!" +:+ nl.
Definition add_shadow_to_thing : string := "Shadow added to charger's thing!" +:+ nl.

(** [class AWSFacade]; [__init__] keeps the subsystems it is given and
    builds those it is given [None] for ([x or X()]: an instance is truthy). *)
Record AWSFacade : Type := { db_subsystem : DbSubsystem; iot_subsystem : IoTSubsystem }.

Definition __init__ (db : option DbSubsystem) (iot : option IoTSubsystem) : AWSFacade :=
  {| db_subsystem := match db with Some d => d | None => DbSubsystem_instance end;
     iot_subsystem := match iot with Some i => i | None => IoTSubsystem_instance end |}.

Definition initialize_charger (self : AWSFacade) : string :=
  let results := [
    create_thing;
    add_shadow_to_thing;
    check_charger_in_shadow_table;
    check_charger_in_cloud_table;
    check_charger_in_es
  ] in
  "Charger initialized:" +:+ nl +:+ String.concat "" results.

Definition client_code (aws_facade : AWSFacade) (out : string) : string :=
  print_end (initialize_charger aws_facade) out.

Definition main (out : string) : string :=
  let db := DbSubsystem_instance in
  let iot := IoTSubsystem_instance in
  let facade := __init__ (Some db) (Some iot) in
  client_code facade out.

End Facade.

(* ===================================================================== *)
(** * flyweight.py *)
(* ===================================================================== *)

Module Flyweight.
Import Py.

(** A Python [set] of strings.  What the code observes of a set is the
    sequence its iterator yields ([str.join], [repr]); a set object is
    therefore given by that sequence, which holds no element twice.  CPython
    decides the order from the elements' hashes and the history of the
    table, so two sets that are equal ([==]) need not enumerate alike. *)
Definition pyset : Type := list string.

(** Python's [s1 == s2] on sets: the same elements. *)
Definition set_eq (s1 s2 : pyset) : Prop := forall x : string, x ∈ s1 <-> x ∈ s2.

(** [repr] of a set: [set()] when empty, else the elements' [repr]s in
    iteration order between braces. *)
Definition repr_set (s : pyset) : string :=
  match s with
  | [] => "set()"
  | _ => "{" +:+ String.concat ", " (map repr_str s) +:+ "}"
  end.

(** [@dataclass class Flyweight]: one field, the shared state. *)
Record Flyweight : Type := { shared_state : pyset }.

(** A dataclass instance defines neither [__bool__] nor [__len__]: it is
    truthy. *)
Definition Flyweight_bool (f : Flyweight) : bool := true.

(** References to [Flyweight] objects: indices into the heap.  Python's
    [a is b] on flyweights is equality of references. *)
Definition ref : Type := nat.

(** A [Dict[str, Flyweight]]: Python dictionaries keep insertion order, and
    assigning to a key that is present replaces the value in place. *)
Definition dict : Type := list (string * ref).

Fixpoint dict_get (key : string) (d : dict) : option ref :=
  match d with
  | [] => None
  | (k, v) :: d' => if String.eqb key k then Some v else dict_get key d'
  end.

Fixpoint dict_set (key : string) (v : ref) (d : dict) : dict :=
  match d with
  | [] => [(key, v)]
  | (k, v') :: d' =>
      if String.eqb key k then (k, v) :: d' else (k, v') :: dict_set key v d'
  end.

Definition dict_keys (d : dict) : list string := fst <$> d.

(** The state of a run of the script: the [Flyweight] objects constructed so
    far, the class attribute [FlyweightFactory._flyweights] and the text
    printed so far. *)
Record store : Type := {
  heap : list Flyweight;
  _flyweights : dict;
  stdout : string
}.

Definition empty_store : store :=
  {| heap := []; _flyweights := []; stdout := "" |}.

Definition emit (f : string -> string) (st : store) : store :=
  {| heap := heap st; _flyweights := _flyweights st; stdout := f (stdout st) |}.

(** [Flyweight(state)]: a new object, at a reference no earlier object has. *)
Definition new_Flyweight (state : pyset) (st : store) : ref * store :=
  (length (heap st),
   {| heap := heap st ++ [{| shared_state := state |}];
      _flyweights := _flyweights st;
      stdout := stdout st |}).

(** [self._flyweights[key] = r].  No method assigns the attribute
    [_flyweights] on an instance, so [self._flyweights] is the class's
    dictionary whatever [self] is. *)
Definition setitem (key : string) (r : ref) (st : store) : store :=
  {| heap := heap st; _flyweights := dict_set key r (_flyweights st); stdout := stdout st |}.

(** [self._flyweights[key]], which raises [KeyError] on a missing key. *)
Definition getitem (key : string) (st : store) : outcome ref :=
  match dict_get key (_flyweights st) with
  | Some r => Ok r
  | None => Raise KeyError
  end.

(** Truth value of [self._flyweights.get(key)]: [None] is falsy, a
    [Flyweight] object is truthy. *)
Definition truthy (st : store) (o : option ref) : bool :=
  match o with
  | None => false
  | Some r =>
      match heap st !! r with
      | Some f => Flyweight_bool f
      | None => true
      end
  end.

(** [Flyweight.operation] *)
Definition operation (self : ref) (unique_state : pyset) (st : store) : store :=
  let shared := match heap st !! self with Some f => shared_state f | None => [] end in
  emit (print_end ("Flyweight: Displaying shared (" +:+ repr_set shared +:+
                   ") and unique (" +:+ repr_set unique_state +:+ ") state.")) st.

(** A [FlyweightFactory] instance holds no attribute of its own
    ([_flyweights] is declared in the class body and assigned nowhere): it is
    known by its identity only, and every attribute lookup on it ends in the
    class. *)
Definition FlyweightFactory : Type := nat.

(** [FlyweightFactory.get_key] *)
Definition get_key (state : pyset) : string := String.concat "_" state.

(** [FlyweightFactory.__init__] *)
Definition __init__ (self : FlyweightFactory) (initial_flyweights : list pyset)
    (st : store) : store :=
  fold_left
    (fun st state =>
       let (r, st') := new_Flyweight state st in
       setitem (get_key state) r st')
    initial_flyweights st.

(** [FlyweightFactory.get_flyweight] *)
Definition get_flyweight (self : FlyweightFactory) (shared_state : pyset)
    (st : store) : outcome ref * store :=
  let key := get_key shared_state in
  let st1 :=
    if negb (truthy st (dict_get key (_flyweights st)))
    then
      let st' := emit (print "FlyweightFactory: Can't find a flyweight, creating new one.") st in
      let (r, st'') := new_Flyweight shared_state st' in
      setitem key r st''
    else emit (print "FlyweightFactory: Reusing existing flyweight.") st in
  (getitem key st1, st1).

(** [FlyweightFactory.list_flyweights]: [count] is what the first line
    printed reports. *)
Definition count (st : store) : nat := length (_flyweights st).

Definition list_flyweights (self : FlyweightFactory) (st : store) : store :=
  let st1 :=
    emit (print ("FlyweightFactory: I have " +:+ str_of_nat (count st) +:+ " flyweights:")) st in
  emit (print_end (String.concat nl (dict_keys (_flyweights st1)))) st1.

(** Requests made of factory instances once they are built. *)
Inductive request : Type :=
| GetFlyweight (self : FlyweightFactory) (shared_state : pyset)
| ListFlyweights (self : FlyweightFactory).

Definition serve (q : request) (st : store) : store :=
  match q with
  | GetFlyweight self shared_state => snd (get_flyweight self shared_state st)
  | ListFlyweights self => list_flyweights self st
  end.

Definition serve_all (qs : list request) (st : store) : store :=
  fold_left (fun st q => serve q st) qs st.

(** The states that the [get_flyweight] requests of a run ask for, in order. *)
Fixpoint asked (qs : list request) : list pyset :=
  match qs with
  | [] => []
  | GetFlyweight _ shared_state :: qs' => shared_state :: asked qs'
  | ListFlyweights _ :: qs' => asked qs'
  end.

(** The keys of the cache, in insertion order. *)
Definition keys (st : store) : list string := dict_keys (_flyweights st).

(** A string without the separator that [get_key] joins with. *)
Definition underscore_free (s : string) : Prop := occurs "_"%char s = false.

(** What follows the first element in a key: each further element after a
    separator. *)
Fixpoint key_tail (l : list string) : string :=
  match l with
  | [] => ""
  | x :: l' => "_" +:+ x +:+ key_tail l'
  end.

(** The keys of a dictionary after an assignment to [key]. *)
Definition extend (key : string) (ks : list string) : list string :=
  if decide (key ∈ ks) then ks else ks ++ [key].

Section Client.

(** The set object the interpreter builds for a set display
    [{e1, ..., en}], as the sequence it enumerates. *)
Variable set_display : list string -> pyset.

(** [add_car_to_police_database] *)
Definition add_car_to_police_database (factory : FlyweightFactory)
    (plates owner brand model color : string) : run store unit :=
  exec (emit (print (nl +:+ nl +:+ "Client: Adding a car to database."))) ;;;
  flyweight <-- get_flyweight factory (set_display [brand; model; color]) ;;
  exec (operation flyweight (set_display [plates; owner])).

(** The script's [__main__] block; [factory] is the identity of the one
    factory it builds. *)
Definition main (factory : FlyweightFactory) : run store unit :=
  exec (__init__ factory [
    set_display ["Chevrolet"; "Camaro2018"; "pink"];
    set_display ["Mercedes Benz"; "C300"; "black"];
    set_display ["Mercedes Benz"; "C500"; "red"];
    set_display ["BMW"; "M5"; "red"];
    set_display ["BMW"; "X6"; "white"]
  ]) ;;;
  exec (list_flyweights factory) ;;;
  add_car_to_police_database factory "CL234IR" "James Doe" "BMW" "M5" "red" ;;;
  add_car_to_police_database factory "CL234IR" "James Doe" "BMW" "X1" "red" ;;;
  exec (emit (print nl)) ;;;
  exec (list_flyweights factory).

End Client.




(** What a client does to the cache: it constructs a factory, or makes a
    request of one. *)
Inductive action : Type :=
| Construct (self : FlyweightFactory) (initial_flyweights : list pyset)
| Request (q : request).

Definition perform (a : action) (st : store) : store :=
  match a with
  | Construct self initial_flyweights => __init__ self initial_flyweights st
  | Request q => serve q st
  end.

Definition perform_all (acts : list action) (st : store) : store :=
  fold_left (fun st a => perform a st) acts st.

(** The keys of the initial states of the factories that a run constructs. *)
Fixpoint seeded_keys (acts : list action) : list string :=
  match acts with
  | [] => []
  | Construct _ initial_flyweights :: acts' =>
      (get_key <$> initial_flyweights) ++ seeded_keys acts'
  | Request _ :: acts' => seeded_keys acts'
  end.

(** Every key of the cache is bound to an object of the heap whose shared
    state has that key. *)
Definition cache_sound (st : store) : Prop :=
  forall (key : string) (r : ref),
    dict_get key (_flyweights st) = Some r ->
    exists f : Flyweight, heap st !! r = Some f /\ get_key (shared_state f) = key.

End Flyweight.

(* ===================================================================== *)
(** * Properties of flyweight.py *)
(* ===================================================================== *)

Module FlyweightProps.
Import Py Flyweight.

(** ** The dictionary *)

Lemma dict_get_None (key : string) (d : dict) :
  dict_get key d = None <-> key ∉ dict_keys d.
Proof.
  induction d as [|[k v] d IH]; simpl.
  - split; [intros _; apply not_elem_of_nil | reflexivity].
  - destruct (String.eqb_spec key k) as [->|Hne].
    + split; [discriminate | intros H; exfalso; apply H; left].
    + rewrite IH, not_elem_of_cons. tauto.
Qed.

Lemma dict_get_Some_key (key : string) (r : ref) (d : dict) :
  dict_get key d = Some r -> key ∈ dict_keys d.
Proof.
  intros H. destruct (decide (key ∈ dict_keys d)) as [|Hn]; [assumption|].
  apply dict_get_None in Hn. congruence.
Qed.

Lemma dict_get_set_eq (key : string) (r : ref) (d : dict) :
  dict_get key (dict_set key r d) = Some r.
Proof.
  induction d as [|[k v] d IH]; simpl.
  - now rewrite String.eqb_refl.
  - destruct (String.eqb_spec key k) as [->|Hne]; simpl.
    + now rewrite String.eqb_refl.
    + destruct (String.eqb_spec key k); [contradiction | exact IH].
Qed.

Lemma dict_get_set_ne (key key' : string) (r : ref) (d : dict) :
  key <> key' -> dict_get key' (dict_set key r d) = dict_get key' d.
Proof.
  intros Hne. induction d as [|[k v] d IH]; simpl.
  - destruct (String.eqb_spec key' key); [congruence | reflexivity].
  - destruct (String.eqb_spec key k) as [->|Hk]; simpl.
    + destruct (String.eqb_spec key' k); [congruence | reflexivity].
    + destruct (String.eqb_spec key' k); [reflexivity | exact IH].
Qed.

(** Assigning to a key that is present keeps the keys; assigning to a new
    key appends it. *)
Lemma dict_set_keys_present (key : string) (r : ref) (d : dict) :
  key ∈ dict_keys d -> dict_keys (dict_set key r d) = dict_keys d.
Proof.
  induction d as [|[k v] d IH]; simpl; intros H.
  - now apply elem_of_nil in H.
  - destruct (String.eqb_spec key k) as [->|Hk]; simpl; [reflexivity|].
    apply elem_of_cons in H as [H|H]; [contradiction|].
    f_equal. now apply IH.
Qed.

Lemma dict_set_absent (key : string) (r : ref) (d : dict) :
  key ∉ dict_keys d -> dict_set key r d = d ++ [(key, r)].
Proof.
  induction d as [|[k v] d IH]; simpl; intros H; [reflexivity|].
  apply not_elem_of_cons in H as [Hk H].
  destruct (String.eqb_spec key k); [contradiction|].
  f_equal. now apply IH.
Qed.

(** ** [get_flyweight], case by case *)

Lemma get_flyweight_hit (self : FlyweightFactory) (s : pyset) (st : store) (r : ref) :
  dict_get (get_key s) (_flyweights st) = Some r ->
  get_flyweight self s st =
    (Ok r, emit (print "FlyweightFactory: Reusing existing flyweight.") st).
Proof.
  intros H. unfold get_flyweight, getitem, truthy. rewrite H.
  assert (Ht : match heap st !! r with Some f => Flyweight_bool f | None => true end = true)
    by now destruct (heap st !! r).
  rewrite Ht. simpl. now rewrite H.
Qed.

Lemma get_flyweight_miss (self : FlyweightFactory) (s : pyset) (st : store) :
  dict_get (get_key s) (_flyweights st) = None ->
  get_flyweight self s st =
    (Ok (length (heap st)),
     {| heap := heap st ++ [{| shared_state := s |}];
        _flyweights := dict_set (get_key s) (length (heap st)) (_flyweights st);
        stdout := print "FlyweightFactory: Can't find a flyweight, creating new one." (stdout st) |}).
Proof.
  intros H. unfold get_flyweight, getitem, truthy. rewrite H. simpl.
  now rewrite dict_get_set_eq.
Qed.

(** A call always returns a flyweight, and the cache then binds the key to
    it. *)
Lemma get_flyweight_binds (self : FlyweightFactory) (s : pyset) (st : store) :
  exists r, fst (get_flyweight self s st) = Ok r /\
            dict_get (get_key s) (_flyweights (snd (get_flyweight self s st))) = Some r.
Proof.
  destruct (dict_get (get_key s) (_flyweights st)) as [r|] eqn:H.
  - exists r. rewrite (get_flyweight_hit self _ _ _ H). simpl. auto.
  - exists (length (heap st)). rewrite (get_flyweight_miss self _ _ H). simpl.
    split; [reflexivity | apply dict_get_set_eq].
Qed.

(** No request rebinds a key that the cache holds. *)
Lemma get_flyweight_keeps (self : FlyweightFactory) (s : pyset) (st : store)
    (key : string) (r : ref) :
  dict_get key (_flyweights st) = Some r ->
  dict_get key (_flyweights (snd (get_flyweight self s st))) = Some r.
Proof.
  intros Hk.
  destruct (dict_get (get_key s) (_flyweights st)) as [r'|] eqn:H.
  - now rewrite (get_flyweight_hit self _ _ _ H).
  - rewrite (get_flyweight_miss self _ _ H). simpl.
    rewrite dict_get_set_ne; [assumption | congruence].
Qed.

Lemma serve_keeps (q : request) (st : store) (key : string) (r : ref) :
  dict_get key (_flyweights st) = Some r ->
  dict_get key (_flyweights (serve q st)) = Some r.
Proof.
  intros H. destruct q as [self s|self];
    [exact (get_flyweight_keeps self s st key r H) | exact H].
Qed.

Lemma serve_all_keeps (qs : list request) (st : store) (key : string) (r : ref) :
  dict_get key (_flyweights st) = Some r ->
  dict_get key (_flyweights (serve_all qs st)) = Some r.
Proof.
  revert st. induction qs as [|q qs IH]; intros st H; simpl; [assumption|].
  apply IH. now apply serve_keeps.
Qed.

(** ** Keys *)

Lemma app_empty (t : string) : "" +:+ t = t.
Proof. reflexivity. Qed.

Lemma app_String (a : ascii) (s t : string) : String a s +:+ t = String a (s +:+ t).
Proof. reflexivity. Qed.

Lemma app_empty_r (s : string) : s +:+ "" = s.
Proof. induction s as [|c s IH]; [reflexivity | now rewrite app_String, IH]. Qed.

Lemma get_key_cons (x : string) (l : list string) :
  get_key (x :: l) = x +:+ key_tail l.
Proof.
  unfold get_key. revert x. induction l as [|y l IH]; intros x.
  - simpl. now rewrite app_empty_r.
  - change (x +:+ "_" +:+ String.concat "_" (y :: l) = x +:+ "_" +:+ y +:+ key_tail l).
    now rewrite IH.
Qed.

Lemma key_tail_shape (l : list string) :
  key_tail l = "" \/ exists t, key_tail l = String "_"%char t.
Proof. destruct l as [|x l]; [left | right; eexists]; reflexivity. Qed.

(** An element ends where the first separator stands. *)
Lemma element_prefix_inj (x y t1 t2 : string) :
  underscore_free x -> underscore_free y ->
  (t1 = "" \/ exists t, t1 = String "_"%char t) ->
  (t2 = "" \/ exists t, t2 = String "_"%char t) ->
  x +:+ t1 = y +:+ t2 -> x = y /\ t1 = t2.
Proof.
  unfold underscore_free. revert y.
  induction x as [|a x IH]; intros [|b y] Hx Hy H1 H2 Heq;
    rewrite ?app_empty, ?app_String in Heq; simpl in *.
  - auto.
  - destruct (Ascii.eqb_spec b "_"%char) as [->|Hb]; [discriminate|].
    destruct H1 as [->|[t ->]]; [discriminate | congruence].
  - destruct (Ascii.eqb_spec a "_"%char) as [->|Ha]; [discriminate|].
    destruct H2 as [->|[t ->]]; [discriminate | congruence].
  - destruct (Ascii.eqb_spec a "_"%char); [discriminate|].
    destruct (Ascii.eqb_spec b "_"%char); [discriminate|].
    injection Heq as -> Heq.
    destruct (IH y Hx Hy H1 H2 Heq) as [-> ->]. auto.
Qed.

Lemma key_tail_inj (l1 l2 : list string) :
  Forall underscore_free l1 -> Forall underscore_free l2 ->
  key_tail l1 = key_tail l2 -> l1 = l2.
Proof.
  revert l2. induction l1 as [|x l1 IH]; intros [|y l2] H1 H2 Heq; simpl in *;
    rewrite ?app_String, ?app_empty in Heq; try reflexivity; try discriminate.
  injection Heq as Heq.
  apply Forall_cons in H1 as [Hx H1]. apply Forall_cons in H2 as [Hy H2].
  destruct (element_prefix_inj x y _ _ Hx Hy (key_tail_shape l1) (key_tail_shape l2) Heq)
    as [-> Ht].
  f_equal. now apply IH.
Qed.

(** C2, on the code.  The sets with elements a and b enumerated one way
    and the other are equal as sets, and [get_key] gives them the keys a_b
    and b_a: the key follows the enumeration, nothing sorts it. *)
Theorem get_key_follows_enumeration :
  set_eq ["a"; "b"] ["b"; "a"] /\
  get_key ["a"; "b"] = "a_b" /\
  get_key ["b"; "a"] = "b_a" /\
  get_key ["a"; "b"] <> get_key ["b"; "a"].
Proof.
  split; [|split; [reflexivity | split; [reflexivity | discriminate]]].
  intros x. rewrite !elem_of_cons, !elem_of_nil. tauto.
Qed.

(** C4 as stated fails: the empty set and the set holding the empty string
    have the key of no characters, and the set holding a_b has the key of
    the set holding a and b enumerated in that order; neither pair is a pair
    of equal sets. *)
Lemma get_key_collides :
  (get_key [] = get_key [""] /\ ~ set_eq [] [""]) /\
  (get_key ["a_b"] = get_key ["a"; "b"] /\ ~ set_eq ["a_b"] ["a"; "b"]).
Proof.
  split; (split; [reflexivity|]); intros H.
  - specialize (H ""). rewrite elem_of_nil, elem_of_cons in H. tauto.
  - specialize (H "a_b"). rewrite !elem_of_cons, !elem_of_nil in H.
    destruct H as [H _]. destruct (H (or_introl eq_refl)) as [E|[E|[]]]; discriminate.
Qed.

(** C4, amended.  On non-empty combinations whose elements hold no
    underscore the key determines the combination: equal keys only for the
    same elements in the same order. *)
Theorem get_key_injective :
  forall S1 S2 : pyset,
    S1 <> [] -> S2 <> [] ->
    Forall underscore_free S1 -> Forall underscore_free S2 ->
    get_key S1 = get_key S2 -> S1 = S2.
Proof.
  intros [|x l1] [|y l2] Hn1 Hn2 H1 H2 Heq; try congruence.
  rewrite !get_key_cons in Heq.
  apply Forall_cons in H1 as [Hx H1]. apply Forall_cons in H2 as [Hy H2].
  destruct (element_prefix_inj x y _ _ Hx Hy (key_tail_shape l1) (key_tail_shape l2) Heq)
    as [-> Ht].
  f_equal. now apply key_tail_inj.
Qed.

Lemma get_key_injective_witness :
  (["BMW"; "M5"; "red"] <> [] /\
   Forall underscore_free ["BMW"; "M5"; "red"] /\
   get_key ["BMW"; "M5"; "red"] = "BMW_M5_red") /\
  ["BMW"; "M5"; "red"] = ["BMW"; "M5"; "red"].
Proof.
  assert (Hfree : Forall underscore_free ["BMW"; "M5"; "red"]) by (repeat constructor).
  split; [split; [discriminate | split; [exact Hfree | reflexivity]]|].
  apply (get_key_injective ["BMW"; "M5"; "red"] ["BMW"; "M5"; "red"]);
    [discriminate | discriminate | exact Hfree | exact Hfree | reflexivity].
Defined.

(** ** The keys and the size of the cache *)

Lemma dict_set_keys (key : string) (r : ref) (d : dict) :
  dict_keys (dict_set key r d) = extend key (dict_keys d).
Proof.
  unfold extend. destruct (decide (key ∈ dict_keys d)) as [Hin|Hout].
  - now apply dict_set_keys_present.
  - rewrite (dict_set_absent _ _ _ Hout). unfold dict_keys. now rewrite fmap_app.
Qed.

Lemma count_keys (st : store) : count st = length (keys st).
Proof. unfold count, keys, dict_keys. now rewrite length_fmap. Qed.

Lemma get_flyweight_keys (self : FlyweightFactory) (s : pyset) (st : store) :
  keys (snd (get_flyweight self s st)) = extend (get_key s) (keys st).
Proof.
  unfold keys. destruct (dict_get (get_key s) (_flyweights st)) as [r|] eqn:H.
  - rewrite (get_flyweight_hit self _ _ _ H). simpl.
    unfold extend. apply dict_get_Some_key in H.
    now destruct (decide (get_key s ∈ dict_keys (_flyweights st))).
  - rewrite (get_flyweight_miss self _ _ H). simpl. apply dict_set_keys.
Qed.


Lemma init_keys (self : FlyweightFactory) (initial : list pyset) (st : store) :
  keys (__init__ self initial st) =
    fold_left (fun ks key => extend key ks) (get_key <$> initial) (keys st).
Proof.
  revert st. induction initial as [|s initial IH]; intros st.
  - reflexivity.
  - change (__init__ self (s :: initial) st)
      with (__init__ self initial
              (setitem (get_key s) (length (heap st)) (snd (new_Flyweight s st)))).
    rewrite IH. simpl. f_equal. apply dict_set_keys.
Qed.

Lemma extend_elem (key k : string) (ks : list string) :
  k ∈ extend key ks <-> k ∈ ks \/ k = key.
Proof.
  unfold extend. destruct (decide (key ∈ ks)) as [Hin|Hout].
  - split; [auto | intros [H| ->]; assumption].
  - rewrite elem_of_app, elem_of_cons, elem_of_nil. tauto.
Qed.

Lemma extend_NoDup (key : string) (ks : list string) :
  NoDup ks -> NoDup (extend key ks).
Proof.
  unfold extend. intros H. destruct (decide (key ∈ ks)) as [Hin|Hout]; [assumption|].
  apply NoDup_app. split; [assumption|]. split.
  - intros x Hx Hx'. apply elem_of_cons in Hx' as [->|Hx']; [contradiction|].
    now apply elem_of_nil in Hx'.
  - apply NoDup_singleton.
Qed.

Lemma extend_all_elem (new ks : list string) (k : string) :
  k ∈ fold_left (fun ks key => extend key ks) new ks <-> k ∈ ks \/ k ∈ new.
Proof.
  revert ks. induction new as [|key new IH]; intros ks; simpl.
  - rewrite elem_of_nil. tauto.
  - rewrite IH, extend_elem, elem_of_cons. tauto.
Qed.

Lemma extend_all_NoDup (new ks : list string) :
  NoDup ks -> NoDup (fold_left (fun ks key => extend key ks) new ks).
Proof.
  revert ks. induction new as [|key new IH]; intros ks H; simpl; [assumption|].
  apply IH. now apply extend_NoDup.
Qed.


(** ** Seeding *)

Lemma init_cons (self : FlyweightFactory) (s : pyset) (initial : list pyset) (st : store) :
  __init__ self (s :: initial) st =
    __init__ self initial
      {| heap := heap st ++ [{| shared_state := s |}];
         _flyweights := dict_set (get_key s) (length (heap st)) (_flyweights st);
         stdout := stdout st |}.
Proof. reflexivity. Qed.


(** Seeding leaves alone the keys that it does not seed. *)
Lemma init_other (self : FlyweightFactory) (initial : list pyset) (st : store) (key : string) :
  key ∉ get_key <$> initial ->
  dict_get key (_flyweights (__init__ self initial st)) = dict_get key (_flyweights st).
Proof.
  revert st. induction initial as [|s initial IH]; intros st Hout; [reflexivity|].
  rewrite fmap_cons in Hout. apply not_elem_of_cons in Hout as [Hne Hout].
  rewrite init_cons, (IH _ Hout). simpl. apply dict_get_set_ne. congruence.
Qed.

(** Seeding binds the key of its [i]-th state to the [i]-th object it
    builds, whether or not the cache held that key before. *)
Lemma init_binds (self : FlyweightFactory) (initial : list pyset) (st : store)
    (i : nat) (s : pyset) :
  NoDup (get_key <$> initial) -> initial !! i = Some s ->
  dict_get (get_key s) (_flyweights (__init__ self initial st)) = Some (length (heap st) + i).
Proof.
  revert st i. induction initial as [|s0 initial IH]; intros st i Hnd Hi; [discriminate|].
  rewrite fmap_cons in Hnd. apply NoDup_cons in Hnd as [Hout Hnd].
  rewrite init_cons. destruct i as [|i]; simpl in Hi.
  - injection Hi as ->. rewrite (init_other _ _ _ _ Hout). simpl.
    rewrite dict_get_set_eq. f_equal. lia.
  - rewrite (IH _ i Hnd Hi). simpl. rewrite length_app. simpl. f_equal. lia.
Qed.




(** ** One cache for all factories *)

Lemma init_elem (self : FlyweightFactory) (initial : list pyset) (st : store) (k : string) :
  k ∈ keys (__init__ self initial st) <-> k ∈ keys st \/ k ∈ get_key <$> initial.
Proof. rewrite init_keys. apply extend_all_elem. Qed.

Lemma init_length (self : FlyweightFactory) (initial : list pyset) (st : store) :
  count st <= count (__init__ self initial st).
Proof.
  revert st. induction initial as [|s initial IH]; intros st; [reflexivity|].
  rewrite init_cons. etransitivity; [|apply IH].
  rewrite !count_keys. unfold keys. simpl. rewrite dict_set_keys. unfold extend.
  destruct (decide (get_key s ∈ dict_keys (_flyweights st))); [reflexivity|].
  rewrite length_app. lia.
Qed.

Lemma cached_is_found (self : FlyweightFactory) (s : pyset) (st : store) :
  get_key s ∈ keys st ->
  exists r, get_flyweight self s st =
              (Ok r, emit (print "FlyweightFactory: Reusing existing flyweight.") st).
Proof.
  intros Hin. destruct (dict_get (get_key s) (_flyweights st)) as [r|] eqn:H.
  - exists r. now apply get_flyweight_hit.
  - apply dict_get_None in H. contradiction.
Qed.

(** Seeding again a state that the cache holds binds its key to the object
    built by the later seeding: a factory constructed later replaces, for
    its initial states, what the cache held. *)
Lemma init_rebinds (self : FlyweightFactory) (s : pyset) (st : store) :
  dict_get (get_key s) (_flyweights (__init__ self [s] st)) = Some (length (heap st)).
Proof.
  rewrite (init_binds self [s] st 0 s); [f_equal; lia | | reflexivity].
  apply NoDup_singleton.
Qed.

(** ** The client code raises nothing *)

Lemma add_car_ok (set_display : list string -> pyset) (factory : FlyweightFactory)
    (plates owner brand model color : string) (st : store) :
  exists st',
    add_car_to_police_database set_display factory plates owner brand model color st =
      (Ok tt, st').
Proof.
  unfold add_car_to_police_database, bind, exec.
  set (st1 := emit _ st).
  destruct (get_flyweight_binds factory (set_display [brand; model; color]) st1)
    as (r & Hr & _).
  destruct (get_flyweight factory (set_display [brand; model; color]) st1) as [o st2].
  simpl in Hr. subst o. eexists. reflexivity.
Qed.

Lemma main_ok (set_display : list string -> pyset) (factory : FlyweightFactory) (st : store) :
  exists st', main set_display factory st = (Ok tt, st').
Proof.
  unfold main, bind, exec at 1 2.
  set (st1 := list_flyweights factory _).
  destruct (add_car_ok set_display factory "CL234IR" "James Doe" "BMW" "M5" "red" st1)
    as [st2 ->].
  destruct (add_car_ok set_display factory "CL234IR" "James Doe" "BMW" "X1" "red" st2)
    as [st3 ->].
  eexists. reflexivity.
Qed.

End FlyweightProps.

(* ===================================================================== *)
(** * Properties of adapter.py *)
(* ===================================================================== *)

Module AdapterProps.
Import Py Adapter.

(** Attribute lookup, class by class. *)
Lemma resolve_request :
  resolve Target request = Some Target /\
  resolve Adaptee request = None /\
  resolve Adapter request = Some Adapter.
Proof. repeat split. Qed.

Lemma resolve_specific_request :
  resolve Target specific_request = None /\
  resolve Adaptee specific_request = Some Adaptee /\
  resolve Adapter specific_request = Some Adaptee.
Proof. repeat split. Qed.

(** The conversion, step by step. *)
Lemma parse_fixed_xml :
  xmltodict_parse
    "<xml_data><some_critical_data>very_much_business_value</some_critical_data></xml_data>" =
  Some (VDict [("xml_data", VDict [("some_critical_data", VStr "very_much_business_value")])]).
Proof. vm_compute. reflexivity. Qed.

Lemma loads_dumps_fixed :
  option_bind _ _ json_loads
    (json_dumps
       (VDict [("xml_data", VDict [("some_critical_data", VStr "very_much_business_value")])])) =
  Some (VDict [("xml_data", VDict [("some_critical_data", VStr "very_much_business_value")])]).
Proof. vm_compute. reflexivity. Qed.

(** What [client_code] does is decided by what [request] does. *)
Lemma client_code_cases (target : class) (out : string) :
  client_code target out =
    match call_request target with
    | Ok data =>
        if is_dict data then (Ok tt, print_end (repr data) out)
        else (Raise AssertionError, out)
    | Raise e => (Raise e, out)
    end.
Proof.
  unfold client_code, bind. destruct (call_request target) as [data|e]; [|reflexivity].
  destruct (is_dict data); reflexivity.
Qed.

(** C6.  [Adapter.request()] turns the fixed XML bytes of
    [Adaptee.specific_request] into the dictionary that maps xml_data to the
    dictionary mapping some_critical_data to very_much_business_value, and
    returns it; the result passes [client_code]'s [isinstance] check, so
    [client_code] prints it and raises nothing. *)
Theorem adapter_request_returns_dict :
  call_specific_request Adapter = Ok Adaptee_specific_request /\
  call_request Adapter =
    Ok (VDict [("xml_data", VDict [("some_critical_data", VStr "very_much_business_value")])]) /\
  (forall data, call_request Adapter = Ok data -> is_dict data = true) /\
  (forall out : string,
      client_code Adapter out =
        (Ok tt, out +:+ "{'xml_data': {'some_critical_data': 'very_much_business_value'}}")).
Proof.
  assert (Hreq : call_request Adapter =
    Ok (VDict [("xml_data", VDict [("some_critical_data", VStr "very_much_business_value")])]))
    by (vm_compute; reflexivity).
  split; [reflexivity|]. split; [exact Hreq|]. split.
  - intros data Hdata. rewrite Hreq in Hdata. injection Hdata as <-. reflexivity.
  - intros out. rewrite client_code_cases, Hreq. reflexivity.
Qed.

End AdapterProps.

(* ===================================================================== *)
(** * Properties of bridge.py *)
(* ===================================================================== *)

Module BridgeProps.
Import Py Bridge.

Lemma get_in_range (s : string) (i : nat) :
  i < String.length s -> exists c, String.get i s = Some c /\ occurs c s = true.
Proof.
  revert i. induction s as [|a s IH]; intros i Hi; simpl in *; [lia|].
  destruct i as [|i].
  - exists a. split; [reflexivity | now rewrite Ascii.eqb_refl].
  - destruct (IH i) as (c & Hget & Hocc); [lia|].
    exists c. split; [exact Hget|]. rewrite Hocc. now destruct (Ascii.eqb a c).
Qed.

Section WithGenerator.
Context {G : Type} `{Random G}.

(** [random.choices] on a population that is not empty returns [k] of its
    elements, whatever the generator. *)
Lemma choices_ok (population : string) (k : nat) (g : G) :
  0 < String.length population ->
  exists (token : string) (g' : G),
    choices population k g = (Ok token, g') /\
    String.length token = k /\
    forall c, occurs c token = true -> occurs c population = true.
Proof.
  intros Hpop. revert g. induction k as [|k IH]; intros g.
  - exists "", g. split; [reflexivity|]. split; [reflexivity|]. intros c Hc. discriminate.
  - simpl. destruct (below (String.length population) g) as [i g1] eqn:Hdraw.
    assert (Hi : i < String.length population).
    { pose proof (below_lt (String.length population) g Hpop) as Hlt.
      now rewrite Hdraw in Hlt. }
    destruct (get_in_range population i Hi) as (c & Hget & Hocc). rewrite Hget.
    destruct (IH g1) as (token & g2 & Hrun & Hlen & Hchars).
    exists (String c token), g2. unfold bind. rewrite Hrun.
    split; [reflexivity|]. split; [simpl; now rewrite Hlen|].
    intros c' Hc'. simpl in Hc'. destruct (Ascii.eqb c c') eqn:E.
    + apply Ascii.eqb_eq in E. subst c'. exact Hocc.
    + now apply Hchars.
Qed.

Lemma authenticate_cloud (g : G) :
  authenticate {| implementation := CloudAPIImplementation |} g =
    (Ok "Logged to cloud platform as user CloudUser with role CloudAPIImplementation", g).
Proof. reflexivity. Qed.

Lemma authenticate_external (g : G) :
  exists (token : string) (g' : G),
    choices (ascii_uppercase +:+ digits) 6 g = (Ok token, g') /\
    authenticate {| implementation := ExternalAPIImplementation |} g =
      (Ok ("Logged to cloud platform via external API token " +:+ token +:+
           " as ExternalUser with role ExternalAPIImplementation"), g') /\
    String.length token = 6 /\
    forall c, occurs c token = true -> occurs c (ascii_uppercase +:+ digits) = true.
Proof.
  destruct (choices_ok (ascii_uppercase +:+ digits) 6 g) as (token & g' & Hrun & Hlen & Hchars).
  { vm_compute. lia. }
  exists token, g'. split; [exact Hrun|]. split; [|split; assumption].
  change (authenticate {| implementation := ExternalAPIImplementation |} g)
    with (login ExternalAPIImplementation g).
  unfold login, get_user, bind. rewrite Hrun. reflexivity.
Qed.

Lemma main_runs (g : G) :
  exists (token : string) (g' : G),
    choices (ascii_uppercase +:+ digits) 6 g = (Ok token, g') /\
    main (g, "") =
      (Ok tt,
       (g', lines [
          "Logged to cloud platform as user CloudUser with role CloudAPIImplementation";
          "";
          "Logged to cloud platform via external API token " +:+ token +:+
            " as ExternalUser with role ExternalAPIImplementation"
        ])).
Proof.
  destruct (authenticate_external g) as (token & g' & Hrun & Hauth & _).
  exists token, g'. split; [exact Hrun|].
  unfold main, bind, client_code, exec. rewrite authenticate_cloud. simpl fst. simpl snd.
  rewrite Hauth. reflexivity.
Qed.

(** Text of equal length before a common continuation. *)
Lemma app_same_length (t t' s s' : string) :
  String.length t = String.length t' -> t +:+ s = t' +:+ s' -> t = t'.
Proof.
  revert t'. induction t as [|a t IH]; intros [|b t'] Hlen Heq; simpl in Hlen;
    try reflexivity; try discriminate.
  change (String a (t +:+ s) = String b (t' +:+ s')) in Heq.
  injection Heq as -> Heq. f_equal. apply IH; [lia | exact Heq].
Qed.

(** Two runs log in with the same line exactly when they draw the same
    token. *)
Lemma same_login_same_token (g g' : G) :
  fst (authenticate {| implementation := ExternalAPIImplementation |} g) =
  fst (authenticate {| implementation := ExternalAPIImplementation |} g') <->
  fst (choices (ascii_uppercase +:+ digits) 6 g) =
  fst (choices (ascii_uppercase +:+ digits) 6 g').
Proof.
  destruct (authenticate_external g) as (t & g1 & Hrun & Hauth & Hlen & _).
  destruct (authenticate_external g') as (t' & g1' & Hrun' & Hauth' & Hlen' & _).
  rewrite Hauth, Hauth', Hrun, Hrun'. simpl. split; intros Heq.
  - injection Heq as Heq. apply String.app_inj in Heq.
    f_equal. apply (app_same_length _ _ _ _ (eq_trans Hlen (eq_sym Hlen')) Heq).
  - injection Heq as ->. reflexivity.
Qed.

End WithGenerator.

End BridgeProps.

(* ===================================================================== *)
(** * Properties of composite.py *)
(* ===================================================================== *)

Module CompositeProps.
Import Py Composite.

(** A leaf inherits [Loader]'s empty bodies. *)
Lemma leaf_add_node (h : heap) (l c : ref) (name : string) (p : option (option ref)) :
  h !! l = Some (LoadNode name p) -> add_node l c h = (Ok tt, h).
Proof. intros Hl. unfold add_node. now rewrite Hl. Qed.

Lemma leaf_remove_node (h : heap) (l c : ref) (name : string) (p : option (option ref)) :
  h !! l = Some (LoadNode name p) -> remove_node l c h = (Ok tt, h).
Proof. intros Hl. unfold remove_node. now rewrite Hl. Qed.

Lemma set_parent_other (h : heap) (c r : ref) (p : option ref) :
  r <> c -> set_parent c p h !! r = h !! r.
Proof.
  intros Hne. unfold set_parent. destruct (h !! c); [|reflexivity].
  apply list_lookup_insert_ne. congruence.
Qed.

Lemma set_parent_self (h : heap) (c : ref) (p : option ref) (o : Loader) :
  h !! c = Some o -> set_parent c p h !! c = Some (with_parent p o).
Proof.
  intros Hc. unfold set_parent. rewrite Hc.
  apply list_lookup_insert_eq. now apply lookup_lt_Some in Hc.
Qed.

(** A cluster's [add_node] stores the component at the end of its children
    and makes the cluster the component's parent; both stay in the heap. *)
Lemma cluster_add_node (h : heap) (self c : ref) (name : string)
    (p : option (option ref)) (children : list ref) :
  h !! self = Some (LoadCluster name p children) ->
  exists (h' : heap) (p' : option (option ref)),
    add_node self c h = (Ok tt, h') /\
    h' !! self = Some (LoadCluster name p' (children ++ [c])) /\
    forall o, h !! c = Some o -> c <> self -> h' !! c = Some (with_parent (Some self) o).
Proof.
  intros Hself. pose proof (lookup_lt_Some _ _ _ Hself) as Hlt.
  unfold add_node. rewrite Hself.
  set (h1 := <[self := LoadCluster name p (children ++ [c])]> h).
  assert (H1 : h1 !! self = Some (LoadCluster name p (children ++ [c])))
    by now apply list_lookup_insert_eq.
  destruct (decide (c = self)) as [->|Hne].
  - exists (set_parent self (Some self) h1), (Some (Some self)).
    split; [reflexivity|]. split; [|congruence].
    now rewrite (set_parent_self _ _ _ _ H1).
  - exists (set_parent c (Some self) h1), p.
    split; [reflexivity|]. split.
    + rewrite set_parent_other; [exact H1 | congruence].
    + intros o Hc _. apply set_parent_self. subst h1.
      rewrite list_lookup_insert_ne; [exact Hc | congruence].
Qed.

(** A cluster's [remove_node] takes the component's first occurrence out of
    its children; when there is none it raises [ValueError] and changes
    nothing. *)
Lemma cluster_remove_node (h : heap) (self c : ref) (name : string)
    (p : option (option ref)) (children : list ref) :
  h !! self = Some (LoadCluster name p children) ->
  match list_remove c children with
  | Some children' =>
      exists (h' : heap) (p' : option (option ref)),
        remove_node self c h = (Ok tt, h') /\
        h' !! self = Some (LoadCluster name p' children')
  | None => remove_node self c h = (Raise ValueError, h)
  end.
Proof.
  intros Hself. pose proof (lookup_lt_Some _ _ _ Hself) as Hlt.
  unfold remove_node. rewrite Hself.
  destruct (list_remove c children) as [children'|]; [|reflexivity].
  set (h1 := <[self := LoadCluster name p children']> h).
  assert (H1 : h1 !! self = Some (LoadCluster name p children'))
    by now apply list_lookup_insert_eq.
  destruct (decide (c = self)) as [->|Hne].
  - exists (set_parent self None h1), (Some None).
    split; [reflexivity|]. now rewrite (set_parent_self _ _ _ _ H1).
  - exists (set_parent c None h1), p.
    split; [reflexivity|]. rewrite set_parent_other; [exact H1 | congruence].
Qed.

(** C10.  On a leaf, [add_node] and [remove_node] raise nothing, return
    [None] and leave the heap, hence the leaf, the component and every other
    object, as it was. *)
Theorem leaf_add_remove_change_nothing :
  forall (h : heap) (l c : ref) (name : string) (p : option (option ref)),
    h !! l = Some (LoadNode name p) ->
    add_node l c h = (Ok tt, h) /\ remove_node l c h = (Ok tt, h).
Proof.
  intros h l c name p Hl. split; [eapply leaf_add_node | eapply leaf_remove_node]; exact Hl.
Qed.

Lemma leaf_add_remove_change_nothing_witness :
  [LoadNode "Simple load node" None; LoadCluster "Master Loader" None []] !! 0 =
    Some (LoadNode "Simple load node" None) /\
  add_node 0 1 [LoadNode "Simple load node" None; LoadCluster "Master Loader" None []] =
    (Ok tt, [LoadNode "Simple load node" None; LoadCluster "Master Loader" None []]) /\
  remove_node 0 1 [LoadNode "Simple load node" None; LoadCluster "Master Loader" None []] =
    (Ok tt, [LoadNode "Simple load node" None; LoadCluster "Master Loader" None []]).
Proof.
  split; [reflexivity|].
  apply (leaf_add_remove_change_nothing
           [LoadNode "Simple load node" None; LoadCluster "Master Loader" None []]
           0 1 "Simple load node" None).
  reflexivity.
Defined.

End CompositeProps.

(* ===================================================================== *)
(** * Properties of decorator.py *)
(* ===================================================================== *)

Module DecoratorProps.
Import Py Decorator.

(** What [report_data] returns does not depend on the attributes stored. *)
Lemma report_data_result (self : DataReporter) (st st' : store) :
  fst (report_data self st) = fst (report_data self st').
Proof.
  revert st st'. induction self as [|r IH|r IH|id r IH]; intros st st'; simpl.
  - reflexivity.
  - apply IH.
  - specialize (IH st st').
    destruct (report_data r st) as [s st1], (report_data r st') as [s' st1'].
    simpl in *. now subst.
  - specialize (IH (<[id := "MQTT Client up"]> st) (<[id := "MQTT Client up"]> st')).
    destruct (report_data r (<[id := "MQTT Client up"]> st)) as [s st1],
             (report_data r (<[id := "MQTT Client up"]> st')) as [s' st1'].
    simpl in *. now subst.
Qed.



End DecoratorProps.

(* ===================================================================== *)
(** * Properties across the scripts *)
(* ===================================================================== *)

Module Scripts.
Import Py.

(** C5.  [client_code] on an [Adaptee] raises [AttributeError] and prints
    nothing; on a [Target] and on an [Adapter] it raises nothing; no
    instance of the script's classes makes it raise anything else; the
    demonstration catches that exception, prints its message and runs to
    its end; its handler catches [AttributeError] only (any other exception
    raised in the [try] block would leave it); and the entry points of the
    Bridge, Composite and Flyweight scripts run to their end with nothing
    raised (those of Decorator and Facade make no call that can raise). *)
Theorem client_code_fails_on_adaptee_only :
  (forall out : string, Adapter.client_code Adapter.Adaptee out = (Raise AttributeError, out)) /\
  (forall out : string, exists out', Adapter.client_code Adapter.Target out = (Ok tt, out')) /\
  (forall out : string, exists out', Adapter.client_code Adapter.Adapter out = (Ok tt, out')) /\
  (forall (target : Adapter.class) (out : string) (e : exn),
      fst (Adapter.client_code target out) = Raise e ->
      target = Adapter.Adaptee /\ e = AttributeError) /\
  (forall out : string,
      try_except (Adapter.client_code Adapter.Adaptee) AttributeError
        (exec (print_end "Adaptee doesn't have 'request' method")) out =
      (Ok tt, out +:+ "Adaptee doesn't have 'request' method")) /\
  (forall (body handler : run string unit) (e : exn) (out out' : string),
      body out = (Raise e, out') -> e <> AttributeError ->
      try_except body AttributeError handler out = (Raise e, out')) /\
  Adapter.main "" =
    (Ok tt,
     lines [
       "Client works fine with Target interface:";
       "{'json_data': {'some_critical_data': 'very_much_business_value'}}";
       "";
       "Client could not work with Adaptee interface:";
       "Adaptee doesn't have 'request' method";
       "";
       "But client could work with Adaptee service using Adapter:";
       "{'xml_data': {'some_critical_data': 'very_much_business_value'}}"
     ]) /\
  (forall (G : Type) (R : Bridge.Random G) (g : G), fst (Bridge.main (g, "")) = Ok tt) /\
  fst (Composite.main {| Composite.objects := []; Composite.stdout := "" |}) = Ok tt /\
  (forall (set_display : list string -> Flyweight.pyset) (factory : Flyweight.FlyweightFactory)
          (st : Flyweight.store),
      fst (Flyweight.main set_display factory st) = Ok tt).
Proof.
  assert (Hadapter : Adapter.call_request Adapter.Adapter =
    Ok (Adapter.VDict
          [("xml_data",
            Adapter.VDict [("some_critical_data", Adapter.VStr "very_much_business_value")])]))
    by (vm_compute; reflexivity).
  split; [|split; [|split; [|split; [|split; [|split; [|split; [|split; [|split]]]]]]]].
  - intros out. rewrite AdapterProps.client_code_cases. reflexivity.
  - intros out. eexists. rewrite AdapterProps.client_code_cases. reflexivity.
  - intros out. eexists. rewrite AdapterProps.client_code_cases, Hadapter. reflexivity.
  - intros target out e. rewrite AdapterProps.client_code_cases. destruct target.
    + simpl. discriminate.
    + simpl. intros H. injection H as <-. auto.
    + rewrite Hadapter. simpl. discriminate.
  - intros out. unfold try_except. rewrite AdapterProps.client_code_cases. reflexivity.
  - intros body handler e out out' Hbody Hne. unfold try_except. rewrite Hbody.
    destruct (decide (e = AttributeError)); [contradiction | reflexivity].
  - vm_compute. reflexivity.
  - intros G R g. destruct (BridgeProps.main_runs g) as (token & g' & _ & ->). reflexivity.
  - vm_compute. reflexivity.
  - intros set_display factory st.
    destruct (FlyweightProps.main_ok set_display factory st) as [st' ->]. reflexivity.
Qed.

(** C8 as stated fails.  Two runs whose generators draw differently log in
    through the external API with different lines. *)
Lemma external_login_varies :
  fst (Bridge.authenticate {| Bridge.implementation := Bridge.ExternalAPIImplementation |}
         [0; 0; 0; 0; 0; 0]) =
    Ok ("Logged to cloud platform via external API token AAAAAA" +:+
        " as ExternalUser with role ExternalAPIImplementation") /\
  fst (Bridge.authenticate {| Bridge.implementation := Bridge.ExternalAPIImplementation |}
         [1; 0; 0; 0; 0; 0]) =
    Ok ("Logged to cloud platform via external API token BAAAAA" +:+
        " as ExternalUser with role ExternalAPIImplementation") /\
  fst (Bridge.authenticate {| Bridge.implementation := Bridge.ExternalAPIImplementation |}
         [0; 0; 0; 0; 0; 0]) <>
  fst (Bridge.authenticate {| Bridge.implementation := Bridge.ExternalAPIImplementation |}
         [1; 0; 0; 0; 0; 0]).
Proof.
  split; [vm_compute; reflexivity|]. split; [vm_compute; reflexivity|].
  vm_compute. discriminate.
Qed.

(** C8, amended.  The entry points of the Adapter, Composite, Decorator and
    Facade scripts print one fixed text each, and the login over the cloud
    implementation is one fixed line.  The login over the external
    implementation is fixed but for its token: six characters among the
    capital letters and the digits, taken from the run's random generator;
    two runs return the same line exactly when they draw the same token,
    and the Bridge entry point prints the cloud line, an empty line and that
    line. *)
Theorem outputs_fixed_but_for_the_token :
  forall (G : Type) (R : Bridge.Random G) (g g' : G),
    Adapter.main "" =
      (Ok tt,
       lines [
         "Client works fine with Target interface:";
         "{'json_data': {'some_critical_data': 'very_much_business_value'}}";
         "";
         "Client could not work with Adaptee interface:";
         "Adaptee doesn't have 'request' method";
         "";
         "But client could work with Adaptee service using Adapter:";
         "{'xml_data': {'some_critical_data': 'very_much_business_value'}}"
       ]) /\
    (let block := [
         "Cluster Master Loader started load:";
         "Simple load node started load.";
         "Cluster Session load cluster started load:";
         "Session load node 1 started load.";
         "Session load node 2 started load.";
         "Cluster Faults load cluster started load:";
         "Faults load node 1 started load.";
         "Faults load node 2 started load.";
         ""
       ] in
     Composite.stdout
       (snd (Composite.main {| Composite.objects := []; Composite.stdout := "" |})) =
     lines ([
         "Simple load node started load.";
         "";
         "Simple load node stopped load.";
         "";
         "Cluster Master Loader started load:";
         "Simple load node started load.";
         "";
         "Cluster Master Loader stopped load:";
         "Simple load node stopped load.";
         ""
       ] ++ block ++ block ++ [""])) /\
    snd (Decorator.main (∅, "")) =
      lines [
        "Client: I've got a simple component:";
        "RESULT: I'm reporting basic charging session data to device' shadow";
        "";
        "Client: Now I've got a decorated component:";
        "RESULT: I'm reporting basic charging session data to device' shadow" +:+
          " and added meter values to device' shadow and sent meter values to MQTT topic"
      ] /\
    Facade.main "" =
      lines [
        "Charger initialized:";
        "Charger's thing is created!";
        "Shadow added to charger's thing!";
        "Charger got to shadow table!";
        "Charger got to cloud table!";
        "Charger got to UI!";
        ""
      ] /\
    Bridge.authenticate {| Bridge.implementation := Bridge.CloudAPIImplementation |} g =
      (Ok "Logged to cloud platform as user CloudUser with role CloudAPIImplementation", g) /\
    (exists (token : string) (g1 : G),
        Bridge.choices (Bridge.ascii_uppercase +:+ Bridge.digits) 6 g = (Ok token, g1) /\
        Bridge.authenticate {| Bridge.implementation := Bridge.ExternalAPIImplementation |} g =
          (Ok ("Logged to cloud platform via external API token " +:+ token +:+
               " as ExternalUser with role ExternalAPIImplementation"), g1) /\
        String.length token = 6 /\
        (forall c, occurs c token = true ->
                   occurs c (Bridge.ascii_uppercase +:+ Bridge.digits) = true) /\
        Bridge.main (g, "") =
          (Ok tt,
           (g1, lines [
              "Logged to cloud platform as user CloudUser with role CloudAPIImplementation";
              "";
              "Logged to cloud platform via external API token " +:+ token +:+
                " as ExternalUser with role ExternalAPIImplementation"
            ]))) /\
    (fst (Bridge.authenticate {| Bridge.implementation := Bridge.ExternalAPIImplementation |} g) =
     fst (Bridge.authenticate {| Bridge.implementation := Bridge.ExternalAPIImplementation |} g') <->
     fst (Bridge.choices (Bridge.ascii_uppercase +:+ Bridge.digits) 6 g) =
     fst (Bridge.choices (Bridge.ascii_uppercase +:+ Bridge.digits) 6 g')).
Proof.
  intros G R g g'.
  split; [vm_compute; reflexivity|].
  split; [vm_compute; reflexivity|].
  split; [vm_compute; reflexivity|].
  split; [vm_compute; reflexivity|].
  split; [apply BridgeProps.authenticate_cloud|].
  split; [|apply BridgeProps.same_login_same_token].
  destruct (BridgeProps.authenticate_external g) as (token & g1 & Hrun & Hauth & Hlen & Hchars).
  destruct (BridgeProps.main_runs g) as (token' & g1' & Hrun' & Hmain).
  rewrite Hrun in Hrun'. injection Hrun' as <- <-.
  exists token, g1. auto 6.
Qed.

End Scripts.

(* ===================================================================== *)
(** * Further properties of flyweight.py: the cache over whole runs *)
(* ===================================================================== *)

Module FlyweightRuns.
Import Py Flyweight.

(** One assignment [self._flyweights[get_key(state)] = Flyweight(state)]. *)
Definition bind_new (state : pyset) (st : store) : store :=
  setitem (get_key state) (length (heap st)) (snd (new_Flyweight state st)).

Lemma bind_new_sound (state : pyset) (st : store) :
  cache_sound st -> cache_sound (bind_new state st).
Proof.
  intros Hs key r. unfold bind_new. simpl.
  destruct (decide (get_key state = key)) as [<-|Hne].
  - rewrite FlyweightProps.dict_get_set_eq. intros [= <-].
    exists {| shared_state := state |}. split; [|reflexivity].
    rewrite lookup_app_r by reflexivity. now rewrite Nat.sub_diag.
  - rewrite FlyweightProps.dict_get_set_ne by exact Hne. intros Hr.
    destruct (Hs key r Hr) as (f & Hf & Hk). exists f. split; [|exact Hk].
    now apply lookup_app_l_Some.
Qed.

Lemma emit_sound (f : string -> string) (st : store) :
  cache_sound st -> cache_sound (emit f st).
Proof. intros Hs key r Hr. exact (Hs key r Hr). Qed.

Lemma init_step (self : FlyweightFactory) (s : pyset) (initial : list pyset) (st : store) :
  __init__ self (s :: initial) st = __init__ self initial (bind_new s st).
Proof. reflexivity. Qed.

Lemma init_sound (self : FlyweightFactory) (initial : list pyset) (st : store) :
  cache_sound st -> cache_sound (__init__ self initial st).
Proof.
  revert st. induction initial as [|s initial IH]; intros st Hs; [exact Hs|].
  rewrite init_step. apply IH. now apply bind_new_sound.
Qed.

Lemma get_flyweight_miss_store (self : FlyweightFactory) (s : pyset) (st : store) :
  dict_get (get_key s) (_flyweights st) = None ->
  snd (get_flyweight self s st) =
    bind_new s (emit (print "FlyweightFactory: Can't find a flyweight, creating new one.") st).
Proof. intros H. now rewrite (FlyweightProps.get_flyweight_miss self _ _ H). Qed.

Lemma get_flyweight_sound (self : FlyweightFactory) (s : pyset) (st : store) :
  cache_sound st -> cache_sound (snd (get_flyweight self s st)).
Proof.
  intros Hs. destruct (dict_get (get_key s) (_flyweights st)) as [r|] eqn:H.
  - rewrite (FlyweightProps.get_flyweight_hit self _ _ _ H). now apply emit_sound.
  - rewrite (get_flyweight_miss_store self _ _ H). now apply bind_new_sound, emit_sound.
Qed.

Lemma perform_sound (a : action) (st : store) :
  cache_sound st -> cache_sound (perform a st).
Proof.
  intros Hs. destruct a as [self initial|[self s|self]].
  - exact (init_sound self initial st Hs).
  - exact (get_flyweight_sound self s st Hs).
  - exact (emit_sound _ _ (emit_sound _ _ Hs)).
Qed.

Lemma perform_keys_NoDup (a : action) (st : store) :
  NoDup (keys st) -> NoDup (keys (perform a st)).
Proof.
  intros Hnd. destruct a as [self initial|[self s|self]].
  - change (perform (Construct self initial) st) with (__init__ self initial st).
    rewrite FlyweightProps.init_keys. now apply FlyweightProps.extend_all_NoDup.
  - change (perform (Request (GetFlyweight self s)) st)
      with (snd (get_flyweight self s st)).
    rewrite FlyweightProps.get_flyweight_keys. now apply FlyweightProps.extend_NoDup.
  - exact Hnd.
Qed.

(** X1.  Whatever factories are constructed and whatever requests are made,
    starting from nothing, the cache stays sound: each of its keys is bound
    to an object that exists and whose shared state has that key, and no key
    is listed twice. *)
Theorem cache_stays_sound :
  forall acts : list action,
    cache_sound (perform_all acts empty_store) /\
    NoDup (keys (perform_all acts empty_store)).
Proof.
  intros acts.
  assert (H0 : cache_sound empty_store /\ NoDup (keys empty_store)).
  { split; [intros key r Hr; discriminate | apply NoDup_nil_2]. }
  revert H0. generalize empty_store.
  induction acts as [|a acts IH]; intros st [Hs Hnd]; [now split|].
  apply IH. split; [now apply perform_sound | now apply perform_keys_NoDup].
Qed.

Lemma init_grows (self : FlyweightFactory) (initial : list pyset) (st : store) :
  heap (__init__ self initial st) = heap st ++ (Build_Flyweight <$> initial).
Proof.
  revert st. induction initial as [|s initial IH]; intros st.
  - simpl. now rewrite app_nil_r.
  - rewrite init_step, IH. unfold bind_new. simpl. now rewrite <- app_assoc.
Qed.



Lemma perform_keeps_keys (a : action) (st : store) (key : string) :
  key ∈ keys st -> key ∈ keys (perform a st).
Proof.
  intros Hin. destruct a as [self initial|[self s|self]].
  - apply FlyweightProps.init_elem. now left.
  - change (perform (Request (GetFlyweight self s)) st)
      with (snd (get_flyweight self s st)).
    rewrite FlyweightProps.get_flyweight_keys. apply FlyweightProps.extend_elem. now left.
  - exact Hin.
Qed.

Lemma extend_length (key : string) (ks : list string) :
  length ks <= length (extend key ks).
Proof.
  unfold extend. destruct (decide (key ∈ ks)); [reflexivity|]. rewrite length_app. lia.
Qed.

Lemma perform_count (a : action) (st : store) : count st <= count (perform a st).
Proof.
  destruct a as [self initial|[self s|self]].
  - apply FlyweightProps.init_length.
  - change (perform (Request (GetFlyweight self s)) st)
      with (snd (get_flyweight self s st)).
    rewrite !FlyweightProps.count_keys, FlyweightProps.get_flyweight_keys.
    apply extend_length.
  - reflexivity.
Qed.

(** X3.  The cache never evicts: after any constructions and requests
    every key it held is still a key and the count has not gone down; and
    requests alone never rebind a key, so each key keeps its object. *)
Theorem cache_never_evicts :
  (forall (acts : list action) (st : store),
      (forall key : string, key ∈ keys st -> key ∈ keys (perform_all acts st)) /\
      count st <= count (perform_all acts st)) /\
  (forall (qs : list request) (st : store) (key : string) (r : ref),
      dict_get key (_flyweights st) = Some r ->
      dict_get key (_flyweights (serve_all qs st)) = Some r).
Proof.
  split.
  - intros acts. induction acts as [|a acts IH]; intros st; [split; auto|].
    destruct (IH (perform a st)) as [Hk Hc]. split.
    + intros key Hin. apply Hk. now apply perform_keeps_keys.
    + etransitivity; [apply perform_count | exact Hc].
  - intros qs st key r. apply FlyweightProps.serve_all_keeps.
Qed.

Lemma get_flyweight_balance (self : FlyweightFactory) (s : pyset) (st : store) :
  length (heap (snd (get_flyweight self s st))) + count st =
  length (heap st) + count (snd (get_flyweight self s st)).
Proof.
  destruct (dict_get (get_key s) (_flyweights st)) as [r|] eqn:H.
  - now rewrite (FlyweightProps.get_flyweight_hit self _ _ _ H).
  - rewrite (FlyweightProps.get_flyweight_miss self _ _ H). unfold count. simpl.
    apply FlyweightProps.dict_get_None in H.
    rewrite (FlyweightProps.dict_set_absent _ _ _ H), !length_app. simpl. lia.
Qed.

(** X4.  Requests build exactly what they cache.  A call that finds its
    key returns the cached object, builds nothing and leaves the count; a
    call that does not find it builds exactly one object, with the state
    asked for, returns it and raises the count by one; so over any run of
    requests the number of objects built equals the number of keys added. *)
Theorem requests_build_what_they_cache :
  (forall (self : FlyweightFactory) (s : pyset) (st : store) (r : ref),
      dict_get (get_key s) (_flyweights st) = Some r ->
      fst (get_flyweight self s st) = Ok r /\
      heap (snd (get_flyweight self s st)) = heap st /\
      count (snd (get_flyweight self s st)) = count st) /\
  (forall (self : FlyweightFactory) (s : pyset) (st : store),
      dict_get (get_key s) (_flyweights st) = None ->
      fst (get_flyweight self s st) = Ok (length (heap st)) /\
      heap (snd (get_flyweight self s st)) = heap st ++ [{| shared_state := s |}] /\
      count (snd (get_flyweight self s st)) = S (count st)) /\
  (forall (qs : list request) (st : store),
      length (heap (serve_all qs st)) + count st =
      length (heap st) + count (serve_all qs st)).
Proof.
  split; [|split].
  - intros self s st r H. now rewrite (FlyweightProps.get_flyweight_hit self _ _ _ H).
  - intros self s st H. rewrite (FlyweightProps.get_flyweight_miss self _ _ H). simpl.
    split; [reflexivity|]. split; [reflexivity|]. unfold count. simpl.
    apply FlyweightProps.dict_get_None in H.
    rewrite (FlyweightProps.dict_set_absent _ _ _ H), length_app. simpl. lia.
  - intros qs. induction qs as [|[self s|self] qs IH]; intros st.
    + reflexivity.
    + change (serve_all (GetFlyweight self s :: qs) st)
        with (serve_all qs (snd (get_flyweight self s st))).
      pose proof (IH (snd (get_flyweight self s st))) as H1.
      pose proof (get_flyweight_balance self s st) as H2. lia.
    + change (serve_all (ListFlyweights self :: qs) st)
        with (serve_all qs (list_flyweights self st)).
      pose proof (IH (list_flyweights self st)) as H1.
      change (heap (list_flyweights self st)) with (heap st) in H1.
      change (count (list_flyweights self st)) with (count st) in H1. lia.
Qed.

Lemma init_app (self : FlyweightFactory) (l1 l2 : list pyset) (st : store) :
  __init__ self (l1 ++ l2) st = __init__ self l2 (__init__ self l1 st).
Proof. unfold __init__. apply fold_left_app. Qed.

(** X5.  Constructing a factory builds one object for each of its initial
    states, in order, whether or not the key is cached already or repeated
    in the list; the key of a state is bound to the object built for the
    last initial state that has this key. *)
Theorem seeding_builds_each_state :
  forall (self : FlyweightFactory) (initial : list pyset) (st : store),
    heap (__init__ self initial st) = heap st ++ (Build_Flyweight <$> initial) /\
    forall (i : nat) (s : pyset),
      initial !! i = Some s ->
      get_key s ∉ get_key <$> drop (S i) initial ->
      dict_get (get_key s) (_flyweights (__init__ self initial st)) =
        Some (length (heap st) + i).
Proof.
  intros self initial st. split; [apply init_grows|].
  intros i s Hi Hlast.
  rewrite <- (take_drop_middle initial i s Hi), init_app, init_step.
  rewrite (FlyweightProps.init_other self _ _ _ Hlast).
  unfold bind_new. simpl. rewrite FlyweightProps.dict_get_set_eq.
  rewrite init_grows, length_app, length_fmap, length_take.
  f_equal. apply lookup_lt_Some in Hi. lia.
Qed.

Lemma swapped_keys_differ (x y : string) (rest : list string) :
  x <> y -> underscore_free x -> underscore_free y ->
  get_key (x :: y :: rest) <> get_key (y :: x :: rest).
Proof.
  intros Hne Hx Hy Heq. rewrite !FlyweightProps.get_key_cons in Heq.
  apply Hne.
  apply (FlyweightProps.element_prefix_inj x y _ _ Hx Hy
           (FlyweightProps.key_tail_shape (y :: rest))
           (FlyweightProps.key_tail_shape (x :: rest)) Heq).
Qed.

(** X6.  A set asked for again with its first two elements enumerated the
    other way round (two different elements, neither holding an underscore)
    is the same set, and it gets a second flyweight: unless the cache holds
    the other key already, the second request builds a new object and the
    count goes up by one. *)
Theorem swapped_enumeration_builds_again :
  forall (self : FlyweightFactory) (x y : string) (rest : list string) (st : store),
    x <> y -> underscore_free x -> underscore_free y ->
    get_key (y :: x :: rest) ∉ keys st ->
    set_eq (x :: y :: rest) (y :: x :: rest) /\
    fst (get_flyweight self (y :: x :: rest) (snd (get_flyweight self (x :: y :: rest) st))) =
      Ok (length (heap (snd (get_flyweight self (x :: y :: rest) st)))) /\
    heap (snd (get_flyweight self (y :: x :: rest)
                 (snd (get_flyweight self (x :: y :: rest) st)))) =
      heap (snd (get_flyweight self (x :: y :: rest) st)) ++
        [{| shared_state := y :: x :: rest |}] /\
    count (snd (get_flyweight self (y :: x :: rest)
                  (snd (get_flyweight self (x :: y :: rest) st)))) =
      S (count (snd (get_flyweight self (x :: y :: rest) st))).
Proof.
  intros self x y rest st Hne Hx Hy Hout.
  split.
  { intros z. rewrite !elem_of_cons. tauto. }
  set (st1 := snd (get_flyweight self (x :: y :: rest) st)).
  assert (Hmiss : dict_get (get_key (y :: x :: rest)) (_flyweights st1) = None).
  { apply FlyweightProps.dict_get_None. fold (keys st1). subst st1.
    rewrite FlyweightProps.get_flyweight_keys, FlyweightProps.extend_elem.
    intros [Hin|Heq]; [contradiction|].
    now apply (swapped_keys_differ x y rest Hne Hx Hy). }
  rewrite (FlyweightProps.get_flyweight_miss self _ _ Hmiss). simpl.
  split; [reflexivity|]. split; [reflexivity|].
  unfold count. simpl. apply FlyweightProps.dict_get_None in Hmiss.
  rewrite (FlyweightProps.dict_set_absent _ _ _ Hmiss), length_app. simpl. lia.
Qed.

Lemma swapped_enumeration_builds_again_witness :
  ("a" <> "b" /\ underscore_free "a" /\ underscore_free "b" /\
   get_key ["b"; "a"] ∉ keys empty_store) /\
  set_eq ["a"; "b"] ["b"; "a"] /\
  fst (get_flyweight 0 ["b"; "a"] (snd (get_flyweight 0 ["a"; "b"] empty_store))) = Ok 1 /\
  heap (snd (get_flyweight 0 ["b"; "a"] (snd (get_flyweight 0 ["a"; "b"] empty_store)))) =
    heap (snd (get_flyweight 0 ["a"; "b"] empty_store)) ++ [{| shared_state := ["b"; "a"] |}] /\
  count (snd (get_flyweight 0 ["b"; "a"] (snd (get_flyweight 0 ["a"; "b"] empty_store)))) = 2.
Proof.
  assert (H1 : "a" <> "b") by discriminate.
  assert (H2 : underscore_free "a") by reflexivity.
  assert (H3 : underscore_free "b") by reflexivity.
  assert (H4 : get_key ["b"; "a"] ∉ keys empty_store) by apply not_elem_of_nil.
  split; [auto|].
  exact (swapped_enumeration_builds_again 0 "a" "b" [] empty_store H1 H2 H3 H4).
Defined.

Section Client.
Variable set_display : list string -> pyset.

Lemma add_car_effect (factory : FlyweightFactory) (plates owner brand model color : string)
    (st : store) :
  let asked :=
    get_flyweight factory (set_display [brand; model; color])
      (emit (print (nl +:+ nl +:+ "Client: Adding a car to database.")) st) in
  let added :=
    add_car_to_police_database set_display factory plates owner brand model color st in
  fst added = Ok tt /\
  heap (snd added) = heap (snd asked) /\
  _flyweights (snd added) = _flyweights (snd asked).
Proof.
  intros asked added. subst added asked.
  unfold add_car_to_police_database, bind, exec.
  set (st0 := emit _ st). set (S := set_display [brand; model; color]).
  destruct (FlyweightProps.get_flyweight_binds factory S st0) as (r & Hr & _).
  destruct (get_flyweight factory S st0) as [o st2]. simpl in Hr. subst o.
  simpl. auto.
Qed.

(** X7.  Once a car has been added, adding a car of the same brand, model
    and color (whatever its plates and owner, through whatever factory)
    raises nothing, builds no flyweight and leaves the count as it is: the
    combination is found in the cache. *)
Theorem second_car_shares_flyweight :
  forall (factory factory' : FlyweightFactory)
         (plates owner plates' owner' brand model color : string) (st : store),
    let st1 :=
      snd (add_car_to_police_database set_display factory plates owner brand model color st) in
    let second :=
      add_car_to_police_database set_display factory' plates' owner' brand model color st1 in
    fst second = Ok tt /\
    heap (snd second) = heap st1 /\
    count (snd second) = count st1.
Proof.
  intros factory factory' plates owner plates' owner' brand model color st st1 second.
  destruct (add_car_effect factory plates owner brand model color st) as (_ & _ & Hcache).
  destruct (add_car_effect factory' plates' owner' brand model color st1)
    as (Hok & Hheap & Hcache').
  fold second in Hok, Hheap, Hcache'. fold st1 in Hcache.
  set (S := set_display [brand; model; color]) in *.
  destruct (FlyweightProps.get_flyweight_binds factory S
              (emit (print (nl +:+ nl +:+ "Client: Adding a car to database.")) st))
    as (r & _ & Hbound).
  rewrite <- Hcache in Hbound.
  assert (Hhit : dict_get (get_key S)
                   (_flyweights (emit (print (nl +:+ nl +:+ "Client: Adding a car to database."))
                                   st1)) = Some r) by exact Hbound.
  rewrite (FlyweightProps.get_flyweight_hit factory' S _ r Hhit) in Hheap, Hcache'.
  split; [exact Hok|]. split; [exact Hheap|].
  unfold count. now rewrite Hcache'.
Qed.

End Client.

End FlyweightRuns.

(* ===================================================================== *)
(** * Further properties of composite.py *)
(* ===================================================================== *)

Module CompositeRuns.
Import Py Composite.

Lemma parent_set_parent (h : heap) (c : ref) (p : option ref) :
  is_Some (h !! c) -> parent c (set_parent c p h) = Ok p.
Proof.
  intros [o Ho]. unfold parent. rewrite (CompositeProps.set_parent_self _ _ _ _ Ho).
  now destruct o.
Qed.

Lemma set_parent_length (h : heap) (c : ref) (p : option ref) :
  length (set_parent c p h) = length h.
Proof. unfold set_parent. destruct (h !! c); [apply length_insert | reflexivity]. Qed.

Lemma lookup_insert_is_Some (h : heap) (i j : ref) (o : Loader) :
  is_Some (h !! j) -> is_Some (<[i := o]> h !! j).
Proof.
  intros Hj. apply lookup_lt_is_Some. rewrite length_insert.
  now apply lookup_lt_is_Some.
Qed.

Lemma list_remove_last (c : ref) (children : list ref) :
  list_remove c (children ++ [c]) =
    Some (match list_remove c children with
          | Some rest => rest ++ [c]
          | None => children
          end).
Proof.
  induction children as [|y children IH]; simpl.
  - now destruct (decide (c = c)).
  - destruct (decide (y = c)); [reflexivity|]. rewrite IH.
    now destruct (list_remove c children).
Qed.

Lemma list_remove_absent (c : ref) (children : list ref) :
  c ∉ children -> list_remove c children = None.
Proof.
  induction children as [|y children IH]; simpl; intros H; [reflexivity|].
  apply not_elem_of_cons in H as [Hne H].
  destruct (decide (y = c)); [congruence|]. now rewrite IH.
Qed.

(** X8.  The parent link follows the cluster: once a cluster has added a
    component, the component's [parent] is the cluster; removing the
    component then succeeds and leaves its [parent] at [None]. *)
Theorem parent_follows_add_and_remove :
  forall (h : heap) (self c : ref) (name : string) (p : option (option ref))
         (children : list ref),
    h !! self = Some (LoadCluster name p children) ->
    is_Some (h !! c) ->
    parent c (snd (add_node self c h)) = Ok (Some self) /\
    fst (remove_node self c (snd (add_node self c h))) = Ok tt /\
    parent c (snd (remove_node self c (snd (add_node self c h)))) = Ok None.
Proof.
  intros h self c name p children Hself Hc.
  destruct (CompositeProps.cluster_add_node h self c name p children Hself)
    as (h1 & p1 & Hadd & Hself1 & _).
  assert (Hh1 : h1 = set_parent c (Some self)
                       (<[self := LoadCluster name p (children ++ [c])]> h)).
  { unfold add_node in Hadd. rewrite Hself in Hadd. now injection Hadd as <-. }
  rewrite Hadd. simpl snd.
  assert (Hc1 : is_Some (h1 !! c)).
  { apply lookup_lt_is_Some. rewrite Hh1, set_parent_length, length_insert.
    now apply lookup_lt_is_Some. }
  split.
  { rewrite Hh1. apply parent_set_parent. now apply lookup_insert_is_Some. }
  unfold remove_node. rewrite Hself1, list_remove_last. simpl.
  split; [reflexivity|].
  apply parent_set_parent. now apply lookup_insert_is_Some.
Qed.

Lemma parent_follows_add_and_remove_witness :
  (leaf_and_cluster !! 1 = Some (LoadCluster "Master Loader" None []) /\
   is_Some (leaf_and_cluster !! 0)) /\
  parent 0 (snd (add_node 1 0 leaf_and_cluster)) = Ok (Some 1) /\
  fst (remove_node 1 0 (snd (add_node 1 0 leaf_and_cluster))) = Ok tt /\
  parent 0 (snd (remove_node 1 0 (snd (add_node 1 0 leaf_and_cluster)))) = Ok None.
Proof.
  assert (H1 : leaf_and_cluster !! 1 = Some (LoadCluster "Master Loader" None []))
    by reflexivity.
  assert (H2 : is_Some (leaf_and_cluster !! 0)) by (eexists; reflexivity).
  split; [auto|].
  exact (parent_follows_add_and_remove leaf_and_cluster 1 0 "Master Loader" None [] H1 H2).
Defined.

(** X9.  A loader that has just been constructed has no parent attribute:
    reading [parent] raises [AttributeError], for a leaf and for a cluster
    alike, until a cluster adds it. *)
Theorem fresh_loader_has_no_parent :
  forall (name : string) (h : heap),
    parent (fst (new_LoadNode name h)) (snd (new_LoadNode name h)) = Raise AttributeError /\
    parent (fst (new_LoadCluster name h)) (snd (new_LoadCluster name h)) =
      Raise AttributeError.
Proof.
  intros name h. unfold parent, new_LoadNode, new_LoadCluster. simpl.
  rewrite !lookup_app_r by reflexivity. now rewrite Nat.sub_diag.
Qed.

(** X10.  [remove_node] after [add_node] takes out the component's first
    occurrence, not the one just added: the cluster is left with its
    earlier children minus that occurrence and with the component at the
    end, and with exactly its earlier children when the component was not
    among them. *)
Theorem remove_takes_first_occurrence :
  forall (h : heap) (self c : ref) (name : string) (p : option (option ref))
         (children : list ref),
    h !! self = Some (LoadCluster name p children) ->
    exists p' : option (option ref),
      snd (remove_node self c (snd (add_node self c h))) !! self =
        Some (LoadCluster name p'
                (match list_remove c children with
                 | Some rest => rest ++ [c]
                 | None => children
                 end)) /\
      (c ∉ children ->
       snd (remove_node self c (snd (add_node self c h))) !! self =
         Some (LoadCluster name p' children)).
Proof.
  intros h self c name p children Hself.
  destruct (CompositeProps.cluster_add_node h self c name p children Hself)
    as (h1 & p1 & Hadd & Hself1 & _).
  rewrite Hadd. simpl snd.
  pose proof (CompositeProps.cluster_remove_node h1 self c name p1 (children ++ [c]) Hself1)
    as Hrem.
  rewrite list_remove_last in Hrem. destruct Hrem as (h2 & p2 & Hrem & Hself2).
  rewrite Hrem. simpl snd. exists p2. split; [exact Hself2|].
  intros Hout. rewrite Hself2. now rewrite (list_remove_absent _ _ Hout).
Qed.

Lemma remove_takes_first_occurrence_witness :
  leaf_and_cluster !! 1 = Some (LoadCluster "Master Loader" None []) /\
  exists p' : option (option ref),
    snd (remove_node 1 0 (snd (add_node 1 0 leaf_and_cluster))) !! 1 =
      Some (LoadCluster "Master Loader" p' []) /\
    (0 ∉ [] ->
     snd (remove_node 1 0 (snd (add_node 1 0 leaf_and_cluster))) !! 1 =
       Some (LoadCluster "Master Loader" p' [])).
Proof.
  split; [reflexivity|].
  exact (remove_takes_first_occurrence leaf_and_cluster 1 0 "Master Loader" None []
           eq_refl).
Defined.

Lemma add_node_frame (h : heap) (self c r : ref) :
  r <> self -> r <> c -> snd (add_node self c h) !! r = h !! r.
Proof.
  intros Hs Hc. unfold add_node.
  destruct (h !! self) as [[name p|name p children]|] eqn:Hself; try reflexivity.
  simpl. rewrite CompositeProps.set_parent_other by exact Hc.
  apply list_lookup_insert_ne. congruence.
Qed.

Lemma remove_node_frame (h : heap) (self c r : ref) :
  r <> self -> r <> c -> snd (remove_node self c h) !! r = h !! r.
Proof.
  intros Hs Hc. unfold remove_node.
  destruct (h !! self) as [[name p|name p children]|] eqn:Hself; try reflexivity.
  destruct (list_remove c children) as [rest|]; [|reflexivity].
  simpl. rewrite CompositeProps.set_parent_other by exact Hc.
  apply list_lookup_insert_ne. congruence.
Qed.

Lemma add_node_length (h : heap) (self c : ref) :
  length (snd (add_node self c h)) = length h.
Proof.
  unfold add_node.
  destruct (h !! self) as [[name p|name p children]|]; try reflexivity.
  simpl. now rewrite set_parent_length, length_insert.
Qed.

Lemma remove_node_length (h : heap) (self c : ref) :
  length (snd (remove_node self c h)) = length h.
Proof.
  unfold remove_node.
  destruct (h !! self) as [[name p|name p children]|]; try reflexivity.
  destruct (list_remove c children); [|reflexivity].
  simpl. now rewrite set_parent_length, length_insert.
Qed.

(** X11.  [add_node] and [remove_node] touch the cluster and the component
    and nothing else: every other loader is as it was, and no loader is
    created or lost. *)
Theorem add_and_remove_touch_two_objects :
  forall (h : heap) (self c r : ref),
    r <> self -> r <> c ->
    snd (add_node self c h) !! r = h !! r /\
    snd (remove_node self c h) !! r = h !! r /\
    length (snd (add_node self c h)) = length h /\
    length (snd (remove_node self c h)) = length h.
Proof.
  intros h self c r Hs Hc.
  split; [now apply add_node_frame|]. split; [now apply remove_node_frame|].
  split; [apply add_node_length | apply remove_node_length].
Qed.

Lemma add_and_remove_touch_two_objects_witness :
  (2 <> 1 /\ 2 <> 0) /\
  snd (add_node 1 0 (leaf_and_cluster ++ [LoadNode "Other" None])) !! 2 =
    (leaf_and_cluster ++ [LoadNode "Other" None]) !! 2 /\
  snd (remove_node 1 0 (leaf_and_cluster ++ [LoadNode "Other" None])) !! 2 =
    (leaf_and_cluster ++ [LoadNode "Other" None]) !! 2 /\
  length (snd (add_node 1 0 (leaf_and_cluster ++ [LoadNode "Other" None]))) =
    length (leaf_and_cluster ++ [LoadNode "Other" None]) /\
  length (snd (remove_node 1 0 (leaf_and_cluster ++ [LoadNode "Other" None]))) =
    length (leaf_and_cluster ++ [LoadNode "Other" None]).
Proof.
  assert (H1 : 2 <> 1) by lia. assert (H2 : 2 <> 0) by lia.
  split; [auto|].
  exact (add_and_remove_touch_two_objects
           (leaf_and_cluster ++ [LoadNode "Other" None]) 1 0 2 H1 H2).
Defined.

(** X12.  [add_node] does not look for the component among the children:
    a component added twice is held twice. *)
Theorem add_node_keeps_duplicates :
  forall (h : heap) (self c : ref) (name : string) (p : option (option ref))
         (children : list ref),
    h !! self = Some (LoadCluster name p children) ->
    exists p' : option (option ref),
      fst (add_node self c (snd (add_node self c h))) = Ok tt /\
      snd (add_node self c (snd (add_node self c h))) !! self =
        Some (LoadCluster name p' (children ++ [c; c])).
Proof.
  intros h self c name p children Hself.
  destruct (CompositeProps.cluster_add_node h self c name p children Hself)
    as (h1 & p1 & Hadd1 & Hself1 & _).
  destruct (CompositeProps.cluster_add_node h1 self c name p1 (children ++ [c]) Hself1)
    as (h2 & p2 & Hadd2 & Hself2 & _).
  exists p2. rewrite Hadd1. simpl snd. rewrite Hadd2. simpl.
  split; [reflexivity|]. now rewrite Hself2, <- app_assoc.
Qed.

Lemma add_node_keeps_duplicates_witness :
  leaf_and_cluster !! 1 = Some (LoadCluster "Master Loader" None []) /\
  exists p' : option (option ref),
    fst (add_node 1 0 (snd (add_node 1 0 leaf_and_cluster))) = Ok tt /\
    snd (add_node 1 0 (snd (add_node 1 0 leaf_and_cluster))) !! 1 =
      Some (LoadCluster "Master Loader" p' [0; 0]).
Proof.
  split; [reflexivity|].
  exact (add_node_keeps_duplicates leaf_and_cluster 1 0 "Master Loader" None [] eq_refl).
Defined.

(** X13.  Adding a component to a second cluster does not take it from the
    first: the first cluster still holds it among its children, while the
    component's [parent] is the second cluster. *)
Theorem second_cluster_does_not_detach :
  forall (h : heap) (a b c : ref) (name_a name_b : string)
         (p_a p_b : option (option ref)) (children_a children_b : list ref),
    h !! a = Some (LoadCluster name_a p_a children_a) ->
    h !! b = Some (LoadCluster name_b p_b children_b) ->
    is_Some (h !! c) ->
    a <> b -> a <> c ->
    snd (add_node b c (snd (add_node a c h))) !! a =
      Some (LoadCluster name_a p_a (children_a ++ [c])) /\
    parent c (snd (add_node b c (snd (add_node a c h)))) = Ok (Some b).
Proof.
  intros h a b c name_a name_b p_a p_b children_a children_b Ha Hb Hc Hab Hac.
  destruct (CompositeProps.cluster_add_node h a c name_a p_a children_a Ha)
    as (h1 & p1 & Hadd1 & Ha1 & _).
  assert (Hh1 : h1 = set_parent c (Some a)
                       (<[a := LoadCluster name_a p_a (children_a ++ [c])]> h)).
  { unfold add_node in Hadd1. rewrite Ha in Hadd1. now injection Hadd1 as <-. }
  assert (Ha1' : h1 !! a = Some (LoadCluster name_a p_a (children_a ++ [c]))).
  { rewrite Hh1, CompositeProps.set_parent_other by exact Hac.
    apply list_lookup_insert_eq. now apply lookup_lt_Some in Ha. }
  rewrite Hadd1. simpl snd.
  split.
  - rewrite add_node_frame by assumption. exact Ha1'.
  - assert (Hb1 : is_Some (h1 !! b)).
    { apply lookup_lt_is_Some. rewrite Hh1, set_parent_length, length_insert.
      now apply lookup_lt_Some in Hb. }
    assert (Hc1 : is_Some (h1 !! c)).
    { apply lookup_lt_is_Some. rewrite Hh1, set_parent_length, length_insert.
      now apply lookup_lt_is_Some. }
    destruct Hb1 as [ob Hob].
    assert (Hcluster : exists n q ch, ob = LoadCluster n q ch).
    { destruct (decide (b = c)) as [->|Hbc].
      - rewrite Hh1 in Hob.
        rewrite (CompositeProps.set_parent_self _ _ _ (LoadCluster name_b p_b children_b))
          in Hob.
        + injection Hob as <-. simpl. eauto.
        + rewrite list_lookup_insert_ne by exact Hac. exact Hb.
      - rewrite Hh1, CompositeProps.set_parent_other in Hob by exact Hbc.
        rewrite list_lookup_insert_ne in Hob by exact Hab.
        pose proof (eq_trans (eq_sym Hob) Hb) as E. injection E as ->. eauto. }
    destruct Hcluster as (n & q & ch & ->).
    unfold add_node. rewrite Hob. simpl.
    apply parent_set_parent. now apply lookup_insert_is_Some.
Qed.

Lemma second_cluster_does_not_detach_witness :
  ((leaf_and_cluster ++ [LoadCluster "Second" None []]) !! 1 =
     Some (LoadCluster "Master Loader" None []) /\
   (leaf_and_cluster ++ [LoadCluster "Second" None []]) !! 2 =
     Some (LoadCluster "Second" None []) /\
   is_Some ((leaf_and_cluster ++ [LoadCluster "Second" None []]) !! 0) /\
   1 <> 2 /\ 1 <> 0) /\
  snd (add_node 2 0 (snd (add_node 1 0 (leaf_and_cluster ++ [LoadCluster "Second" None []]))))
    !! 1 = Some (LoadCluster "Master Loader" None [0]) /\
  parent 0 (snd (add_node 2 0
                   (snd (add_node 1 0 (leaf_and_cluster ++ [LoadCluster "Second" None []])))))
    = Ok (Some 2).
Proof.
  assert (H3 : is_Some ((leaf_and_cluster ++ [LoadCluster "Second" None []]) !! 0))
    by (eexists; reflexivity).
  assert (H4 : 1 <> 2) by lia. assert (H5 : 1 <> 0) by lia.
  split; [auto 6|].
  exact (second_cluster_does_not_detach
           (leaf_and_cluster ++ [LoadCluster "Second" None []]) 1 2 0
           "Master Loader" "Second" None None [] [] eq_refl eq_refl H3 H4 H5).
Defined.

(** ** Loading over the tree *)

Lemma collect_all_ok (f : ref -> outcome string) (children : list ref) :
  (forall c, c ∈ children -> exists s, f c = Ok s) ->
  exists results, collect f children = Ok results.
Proof.
  induction children as [|c children IH]; intros H; simpl; [eauto|].
  destruct (H c) as [s ->]; [left|].
  destruct IH as [results ->]; [intros c' Hc'; apply H; now right|]. eauto.
Qed.

Lemma collect_raises (f : ref -> outcome string) (children : list ref) (c : ref) :
  c ∈ children -> (exists e, f c = Raise e) ->
  exists e, collect f children = Raise e.
Proof.
  induction children as [|y children IH]; intros Hin Hc; [now apply elem_of_nil in Hin|].
  simpl. apply elem_of_cons in Hin as [->|Hin].
  - destruct Hc as [e ->]. eauto.
  - destruct (f y) as [s|e]; [|eauto].
    destruct (IH Hin Hc) as [e ->]. eauto.
Qed.

Lemma collect_only (f : ref -> outcome string) (children : list ref) (e0 e : exn) :
  (forall c e', c ∈ children -> f c = Raise e' -> e' = e0) ->
  collect f children = Raise e -> e = e0.
Proof.
  induction children as [|y children IH]; intros H; simpl; [discriminate|].
  destruct (f y) as [s|e1] eqn:Hy.
  - destruct (collect f children) as [results|e2] eqn:Hrest; [discriminate|].
    intros [= <-]. apply IH; [|reflexivity]. intros c e' Hc. apply H. now right.
  - intros [= <-]. apply (H y e1); [left | exact Hy].
Qed.

Lemma collect_mono (f g : ref -> outcome string) (children : list ref) (results : list string) :
  (forall c s, c ∈ children -> f c = Ok s -> g c = Ok s) ->
  collect f children = Ok results -> collect g children = Ok results.
Proof.
  revert results. induction children as [|y children IH]; intros results H; simpl.
  - exact (fun E => E).
  - destruct (f y) as [s|e] eqn:Hy; [|discriminate].
    rewrite (H y s (list_elem_of_here _ _) Hy).
    destruct (collect f children) as [rs|e] eqn:Hrest; [|discriminate].
    rewrite (IH rs); [exact (fun E => E) | | reflexivity].
    intros c s' Hc. apply H. now right.
Qed.

(** X14.  On a heap whose clusters' children all exist and in which no
    cluster is among its own descendants (some measure goes down from each
    cluster to its children), [start_load] and [stop_load] return a result
    for every loader, as soon as the calls allowed exceed the loader's
    measure. *)
Theorem load_returns_on_trees :
  forall (rank : ref -> nat) (h : heap) (depth : nat) (self : ref),
    closed h -> ranked rank h -> is_Some (h !! self) -> rank self < depth ->
    (exists s, start_load depth h self = Ok s) /\
    (exists s, stop_load depth h self = Ok s).
Proof.
  intros rank h depth self Hclosed Hranked. revert self.
  induction depth as [|depth IH]; intros self [o Ho] Hlt; [lia|].
  simpl. rewrite Ho. destruct o as [name p|name p children]; [split; eauto|].
  assert (Hkids : forall c, c ∈ children -> is_Some (h !! c) /\ rank c < depth).
  { intros c Hc. split; [exact (Hclosed _ _ _ _ _ Ho Hc)|].
    pose proof (Hranked _ _ _ _ _ Ho Hc). lia. }
  split.
  - destruct (collect_all_ok (start_load depth h) children) as [results ->]; [|eauto].
    intros c Hc. destruct (Hkids c Hc) as [Hs Hr]. exact (proj1 (IH c Hs Hr)).
  - destruct (collect_all_ok (stop_load depth h) children) as [results ->]; [|eauto].
    intros c Hc. destruct (Hkids c Hc) as [Hs Hr]. exact (proj2 (IH c Hs Hr)).
Qed.

Lemma cluster_of_leaf_closed : closed cluster_of_leaf.
Proof.
  intros [|[|r]] name p children c Hr Hc; simpl in Hr; try discriminate.
  injection Hr as <- <- <-. apply elem_of_cons in Hc as [->|Hc]; [eexists; reflexivity|].
  now apply elem_of_nil in Hc.
Qed.

Lemma cluster_of_leaf_ranked : ranked (fun r => r) cluster_of_leaf.
Proof.
  intros [|[|r]] name p children c Hr Hc; simpl in Hr; try discriminate.
  injection Hr as <- <- <-. apply elem_of_cons in Hc as [->|Hc]; [lia|].
  now apply elem_of_nil in Hc.
Qed.

Lemma load_returns_on_trees_witness :
  (closed cluster_of_leaf /\ ranked (fun r => r) cluster_of_leaf /\
   is_Some (cluster_of_leaf !! 1) /\ 1 < 2) /\
  (exists s, start_load 2 cluster_of_leaf 1 = Ok s) /\
  (exists s, stop_load 2 cluster_of_leaf 1 = Ok s).
Proof.
  assert (H3 : is_Some (cluster_of_leaf !! 1)) by (eexists; reflexivity).
  assert (H4 : 1 < 2) by lia.
  split; [auto using cluster_of_leaf_closed, cluster_of_leaf_ranked|].
  exact (load_returns_on_trees (fun r => r) cluster_of_leaf 2 1
           cluster_of_leaf_closed cluster_of_leaf_ranked H3 H4).
Defined.

Lemma start_load_only_recursion (h : heap) :
  closed h ->
  forall (depth : nat) (self : ref) (e : exn),
    is_Some (h !! self) -> start_load depth h self = Raise e -> e = RecursionError.
Proof.
  intros Hclosed depth. induction depth as [|depth IH]; intros self e [o Ho]; simpl.
  - now intros [= <-].
  - rewrite Ho. destruct o as [name p|name p children]; [discriminate|].
    destruct (collect (start_load depth h) children) as [results|e'] eqn:Hcol;
      [discriminate|].
    intros [= <-]. apply (collect_only _ _ RecursionError e' ) in Hcol; [exact Hcol|].
    intros c e1 Hc. apply IH. exact (Hclosed _ _ _ _ _ Ho Hc).
Qed.

(** X15.  A cluster that is one of its own children cannot be loaded:
    whatever number of nested calls the interpreter allows, [start_load]
    ends in [RecursionError] (on a heap whose clusters' children all
    exist). *)
Theorem self_child_never_loads :
  forall (h : heap) (self : ref) (name : string) (p : option (option ref))
         (children : list ref) (depth : nat),
    closed h ->
    h !! self = Some (LoadCluster name p children) ->
    self ∈ children ->
    start_load depth h self = Raise RecursionError.
Proof.
  intros h self name p children depth Hclosed Hself Hin.
  assert (Hraise : exists e, start_load depth h self = Raise e).
  { induction depth as [|depth IH]; simpl; [eauto|].
    rewrite Hself.
    destruct (collect_raises (start_load depth h) children self Hin IH) as [e ->]. eauto. }
  destruct Hraise as [e He]. rewrite He. f_equal.
  apply (start_load_only_recursion h Hclosed depth self e); [eauto | exact He].
Qed.

Lemma cluster_of_itself_closed : closed cluster_of_itself.
Proof.
  intros [|r] name p children c Hr Hc; simpl in Hr; try discriminate.
  injection Hr as <- <- <-. apply elem_of_cons in Hc as [->|Hc]; [eexists; reflexivity|].
  now apply elem_of_nil in Hc.
Qed.

Lemma self_child_never_loads_witness :
  (closed cluster_of_itself /\
   cluster_of_itself !! 0 = Some (LoadCluster "Master Loader" (Some (Some 0)) [0]) /\
   0 ∈ [0]) /\
  snd (add_node 0 0 [LoadCluster "Master Loader" None []]) = cluster_of_itself /\
  start_load recursion_limit cluster_of_itself 0 = Raise RecursionError.
Proof.
  assert (H3 : 0 ∈ [0]) by left.
  split; [auto using cluster_of_itself_closed|]. split; [reflexivity|].
  exact (self_child_never_loads cluster_of_itself 0 "Master Loader" (Some (Some 0)) [0]
           recursion_limit cluster_of_itself_closed eq_refl H3).
Defined.

Lemma load_mono (h : heap) (depth depth' : nat) (self : ref) (s : string) :
  depth <= depth' ->
  (start_load depth h self = Ok s -> start_load depth' h self = Ok s) /\
  (stop_load depth h self = Ok s -> stop_load depth' h self = Ok s).
Proof.
  revert depth' self s. induction depth as [|depth IH]; intros depth' self s Hle.
  - split; discriminate.
  - destruct depth' as [|depth']; [lia|]. simpl.
    destruct (h !! self) as [[name p|name p children]|]; [split; auto | | split; auto].
    split.
    + destruct (collect (start_load depth h) children) as [results|e] eqn:Hcol;
        [|discriminate].
      rewrite (collect_mono _ (start_load depth' h) _ _ ltac:(
        intros c s' _ Hs'; apply (IH depth' c s'); [lia | exact Hs']) Hcol).
      exact (fun E => E).
    + destruct (collect (stop_load depth h) children) as [results|e] eqn:Hcol;
        [|discriminate].
      rewrite (collect_mono _ (stop_load depth' h) _ _ ltac:(
        intros c s' _ Hs'; apply (IH depth' c s'); [lia | exact Hs']) Hcol).
      exact (fun E => E).
Qed.

(** X16.  Allowing more nested calls never changes a result: what
    [start_load] and [stop_load] return within some depth they return
    within every greater depth. *)
Theorem load_result_is_stable :
  forall (h : heap) (depth depth' : nat) (self : ref),
    depth <= depth' ->
    (forall s, start_load depth h self = Ok s -> start_load depth' h self = Ok s) /\
    (forall s, stop_load depth h self = Ok s -> stop_load depth' h self = Ok s).
Proof.
  intros h depth depth' self Hle.
  split; intros s; apply (load_mono h depth depth' self s Hle).
Qed.

Lemma load_result_is_stable_witness :
  2 <= recursion_limit /\
  (forall s, start_load 2 cluster_of_leaf 1 = Ok s ->
             start_load recursion_limit cluster_of_leaf 1 = Ok s) /\
  (forall s, stop_load 2 cluster_of_leaf 1 = Ok s ->
             stop_load recursion_limit cluster_of_leaf 1 = Ok s).
Proof.
  assert (H : 2 <= recursion_limit) by (unfold recursion_limit; lia).
  split; [exact H|].
  exact (load_result_is_stable cluster_of_leaf 2 recursion_limit 1 H).
Defined.

End CompositeRuns.

(* ===================================================================== *)
(** * Further properties of decorator.py and bridge.py *)
(* ===================================================================== *)

Module DecoratorRuns.
Import Py Decorator.

Lemma report_data_store (self : DataReporter) (st : gmap nat string) (id : nat) :
  snd (report_data self st) !! id =
    if decide (id ∈ mqtt_ids self) then Some "MQTT Client down" else st !! id.
Proof.
  revert st. induction self as [|r IH|r IH|id0 r IH]; intros st; simpl.
  - destruct (decide (id ∈ [])) as [H|_]; [now apply elem_of_nil in H | reflexivity].
  - apply IH.
  - specialize (IH st). destruct (report_data r st) as [s st1]. exact IH.
  - specialize (IH (<[id0 := "MQTT Client up"]> st)).
    destruct (report_data r (<[id0 := "MQTT Client up"]> st)) as [s st1]. simpl in *.
    destruct (decide (id = id0)) as [->|Hne].
    + rewrite lookup_insert_eq.
      destruct (decide (id0 ∈ id0 :: mqtt_ids r)) as [_|H]; [reflexivity|].
      exfalso. apply H. left.
    + rewrite lookup_insert_ne by congruence. rewrite IH.
      rewrite lookup_insert_ne by congruence.
      destruct (decide (id ∈ mqtt_ids r)) as [Hin|Hout],
               (decide (id ∈ id0 :: mqtt_ids r)) as [Hin'|Hout']; try reflexivity.
      * exfalso. apply Hout'. now right.
      * apply elem_of_cons in Hin' as [?|?]; [congruence | contradiction].
Qed.

(** X17.  [report_data] leaves the client attribute of every MQTT decorator
    of the chain at the text MQTT Client down, the inner ones included, and
    touches the attribute of no other object. *)
Theorem report_data_sets_the_chain :
  forall (self : DataReporter) (st : gmap nat string) (id : nat),
    (id ∈ mqtt_ids self ->
     _mqtt_client id (snd (report_data self st)) = Some "MQTT Client down") /\
    (id ∉ mqtt_ids self ->
     _mqtt_client id (snd (report_data self st)) = _mqtt_client id st).
Proof.
  intros self st id. unfold _mqtt_client. rewrite report_data_store.
  destruct (decide (id ∈ mqtt_ids self)); split; intros H; try reflexivity; contradiction.
Qed.

(** X18.  Reporting again changes nothing more: a second [report_data] on
    the same reporter returns the same text and leaves the store as the
    first left it. *)
Theorem report_data_twice :
  forall (self : DataReporter) (st : gmap nat string),
    report_data self (snd (report_data self st)) = report_data self st.
Proof.
  intros self st.
  assert (Hres := DecoratorProps.report_data_result self (snd (report_data self st)) st).
  assert (Hst : snd (report_data self (snd (report_data self st))) =
                snd (report_data self st)).
  { apply map_eq. intros id. rewrite !report_data_store.
    now destruct (decide (id ∈ mqtt_ids self)). }
  destruct (report_data self (snd (report_data self st))) as [s1 st1],
           (report_data self st) as [s0 st0]. simpl in *. congruence.
Qed.

End DecoratorRuns.

Module BridgeRuns.
Import Py Bridge.

Lemma append_assoc (a b c : string) : (a +:+ b) +:+ c = a +:+ b +:+ c.
Proof.
  induction a as [|x a IH]; [reflexivity|].
  change (String x ((a +:+ b) +:+ c) = String x (a +:+ b +:+ c)). now rewrite IH.
Qed.

(** X19.  Logging in raises nothing, over either implementation and
    whatever the generator: every index drawn lies within the alphabet, and
    the tuple [get_user] returns has the number of components that [login]
    unpacks; the line returned ends with the implementation's class name. *)
Theorem authenticate_never_raises :
  forall (G : Type) (R : Random G) (self : AbstractAPI) (g : G),
    exists (line : string) (g' : G),
      authenticate self g = (Ok (line +:+ class_name (implementation self)), g').
Proof.
  intros G R [[|]] g.
  - exists "Logged to cloud platform as user CloudUser with role ", g. reflexivity.
  - destruct (BridgeProps.authenticate_external g) as (token & g' & _ & Hauth & _).
    exists ("Logged to cloud platform via external API token " +:+ token +:+
            " as ExternalUser with role "), g'.
    rewrite Hauth. do 2 f_equal.
    rewrite !append_assoc. reflexivity.
Qed.

End BridgeRuns.

(* ===================================================================== *)
(** * flyweight.py: identity of the flyweights and the cache of the class *)
(* ===================================================================== *)

Module FlyweightSharing.
Import Py Flyweight.

Lemma perform_keeps_binding (a : action) (st : store) (key : string) (r : ref) :
  key ∉ seeded_keys [a] ->
  dict_get key (_flyweights st) = Some r ->
  dict_get key (_flyweights (perform a st)) = Some r.
Proof.
  intros Hout Hr. destruct a as [self initial|q].
  - simpl in Hout. rewrite app_nil_r in Hout.
    change (perform (Construct self initial) st) with (__init__ self initial st).
    now rewrite (FlyweightProps.init_other self initial st key Hout).
  - exact (FlyweightProps.serve_keeps q st key r Hr).
Qed.

Lemma seeded_keys_cons (a : action) (acts : list action) (key : string) :
  key ∉ seeded_keys (a :: acts) -> (key ∉ seeded_keys [a]) /\ (key ∉ seeded_keys acts).
Proof.
  destruct a as [self initial|q]; simpl; rewrite ?app_nil_r.
  - intros H. apply not_elem_of_app in H. exact H.
  - intros H. split; [apply not_elem_of_nil | exact H].
Qed.

Lemma perform_all_keeps_binding (acts : list action) (st : store) (key : string) (r : ref) :
  key ∉ seeded_keys acts ->
  dict_get key (_flyweights st) = Some r ->
  dict_get key (_flyweights (perform_all acts st)) = Some r.
Proof.
  revert st. induction acts as [|a acts IH]; intros st Hout Hr; [exact Hr|].
  apply seeded_keys_cons in Hout as [Ha Hacts].
  change (perform_all (a :: acts) st) with (perform_all acts (perform a st)).
  apply IH; [exact Hacts | now apply perform_keeps_binding].
Qed.

Lemma perform_all_sound (acts : list action) (st : store) :
  cache_sound st -> cache_sound (perform_all acts st).
Proof.
  revert st. induction acts as [|a acts IH]; intros st Hs; [exact Hs|].
  change (perform_all (a :: acts) st) with (perform_all acts (perform a st)).
  apply IH. now apply FlyweightRuns.perform_sound.
Qed.

(** C1 as stated fails.  When a factory seeded with the state is
    constructed after the first call, the later call returns another object
    than the first: the constructor has bound the key to the object it
    built. *)
Lemma reseeding_replaces_the_flyweight :
  fst (get_flyweight 0 ["BMW"; "M5"; "red"] empty_store) = Ok 0 /\
  fst (get_flyweight 0 ["BMW"; "M5"; "red"]
         (perform_all [Construct 1 [["BMW"; "M5"; "red"]]]
            (snd (get_flyweight 0 ["BMW"; "M5"; "red"] empty_store)))) = Ok 1.
Proof. split; reflexivity. Qed.

(** C1, amended.  The first call [get_flyweight(S)] returns the object
    that the cache holds for the key of [S] and builds nothing, or, when
    the cache holds none, builds one object with the state [S] and returns
    it.  Whatever requests are then served and whatever factories are then
    constructed, through whatever instances, provided that none of these
    factories has an initial state with the key of [S], a later call
    [get_flyweight(S)] (the set enumerating as before) returns the
    reference that the first call returned, reports the reuse and leaves
    the heap as it found it: no [Flyweight] is constructed.  In a sound
    cache that reference names an object of the heap whose state has the
    key of [S]. *)
Theorem get_flyweight_same_object :
  forall (self self' : FlyweightFactory) (S : pyset) (between : list action) (st : store),
    get_key S ∉ seeded_keys between ->
    exists r : ref,
      fst (get_flyweight self S st) = Ok r /\
      (match dict_get (get_key S) (_flyweights st) with
       | Some cached =>
           r = cached /\ heap (snd (get_flyweight self S st)) = heap st
       | None =>
           r = length (heap st) /\
           heap (snd (get_flyweight self S st)) = heap st ++ [{| shared_state := S |}]
       end) /\
      get_flyweight self' S (perform_all between (snd (get_flyweight self S st))) =
        (Ok r,
         emit (print "FlyweightFactory: Reusing existing flyweight.")
           (perform_all between (snd (get_flyweight self S st)))) /\
      heap (snd (get_flyweight self' S (perform_all between (snd (get_flyweight self S st))))) =
        heap (perform_all between (snd (get_flyweight self S st))) /\
      (cache_sound st ->
       exists f : Flyweight,
         heap (perform_all between (snd (get_flyweight self S st))) !! r = Some f /\
         get_key (shared_state f) = get_key S).
Proof.
  intros self self' S between st Hout.
  destruct (FlyweightProps.get_flyweight_binds self S st) as (r & Hfirst & Hbound).
  pose proof (perform_all_keeps_binding between _ _ _ Hout Hbound) as Hlater.
  exists r. split; [exact Hfirst|]. split; [|split; [|split]].
  - destruct (dict_get (get_key S) (_flyweights st)) as [cached|] eqn:Hlook.
    + rewrite (FlyweightProps.get_flyweight_hit self _ _ _ Hlook) in Hfirst |- *.
      simpl in *. split; [congruence | reflexivity].
    + rewrite (FlyweightProps.get_flyweight_miss self _ _ Hlook) in Hfirst |- *.
      simpl in *. split; [congruence | reflexivity].
  - now apply FlyweightProps.get_flyweight_hit.
  - now rewrite (FlyweightProps.get_flyweight_hit self' _ _ _ Hlater).
  - intros Hsound.
    apply (perform_all_sound between _ (FlyweightRuns.get_flyweight_sound self S st Hsound)).
    exact Hlater.
Qed.

Lemma get_flyweight_same_object_witness :
  (get_key ["BMW"; "M5"; "red"] ∉
     seeded_keys [Request (GetFlyweight 1 ["BMW"; "X1"; "red"]);
                  Construct 1 [["BMW"; "X6"; "white"]];
                  Request (ListFlyweights 0)]) /\
  exists r : ref,
    fst (get_flyweight 0 ["BMW"; "M5"; "red"] empty_store) = Ok r /\
    (match dict_get (get_key ["BMW"; "M5"; "red"]) (_flyweights empty_store) with
     | Some cached =>
         r = cached /\
         heap (snd (get_flyweight 0 ["BMW"; "M5"; "red"] empty_store)) = heap empty_store
     | None =>
         r = length (heap empty_store) /\
         heap (snd (get_flyweight 0 ["BMW"; "M5"; "red"] empty_store)) =
           heap empty_store ++ [{| shared_state := ["BMW"; "M5"; "red"] |}]
     end) /\
    get_flyweight 1 ["BMW"; "M5"; "red"]
      (perform_all [Request (GetFlyweight 1 ["BMW"; "X1"; "red"]);
                    Construct 1 [["BMW"; "X6"; "white"]];
                    Request (ListFlyweights 0)]
         (snd (get_flyweight 0 ["BMW"; "M5"; "red"] empty_store))) =
      (Ok r,
       emit (print "FlyweightFactory: Reusing existing flyweight.")
         (perform_all [Request (GetFlyweight 1 ["BMW"; "X1"; "red"]);
                       Construct 1 [["BMW"; "X6"; "white"]];
                       Request (ListFlyweights 0)]
            (snd (get_flyweight 0 ["BMW"; "M5"; "red"] empty_store)))) /\
    heap (snd (get_flyweight 1 ["BMW"; "M5"; "red"]
                 (perform_all [Request (GetFlyweight 1 ["BMW"; "X1"; "red"]);
                               Construct 1 [["BMW"; "X6"; "white"]];
                               Request (ListFlyweights 0)]
                    (snd (get_flyweight 0 ["BMW"; "M5"; "red"] empty_store))))) =
      heap (perform_all [Request (GetFlyweight 1 ["BMW"; "X1"; "red"]);
                         Construct 1 [["BMW"; "X6"; "white"]];
                         Request (ListFlyweights 0)]
              (snd (get_flyweight 0 ["BMW"; "M5"; "red"] empty_store))) /\
    (cache_sound empty_store ->
     exists f : Flyweight,
       heap (perform_all [Request (GetFlyweight 1 ["BMW"; "X1"; "red"]);
                          Construct 1 [["BMW"; "X6"; "white"]];
                          Request (ListFlyweights 0)]
               (snd (get_flyweight 0 ["BMW"; "M5"; "red"] empty_store))) !! r = Some f /\
       get_key (shared_state f) = get_key ["BMW"; "M5"; "red"]).
Proof.
  assert (H : get_key ["BMW"; "M5"; "red"] ∉
                seeded_keys [Request (GetFlyweight 1 ["BMW"; "X1"; "red"]);
                             Construct 1 [["BMW"; "X6"; "white"]];
                             Request (ListFlyweights 0)])
    by (apply (bool_decide_unpack _); vm_compute; exact I).
  split; [exact H|].
  exact (get_flyweight_same_object 0 1 ["BMW"; "M5"; "red"]
           [Request (GetFlyweight 1 ["BMW"; "X1"; "red"]);
            Construct 1 [["BMW"; "X6"; "white"]];
            Request (ListFlyweights 0)]
           empty_store H).
Defined.

(** ** One cache for all factories *)

Lemma extend_all_prefix (new ks : list string) :
  ks `prefix_of` fold_left (fun ks key => extend key ks) new ks.
Proof.
  revert ks. induction new as [|key new IH]; intros ks; simpl; [reflexivity|].
  etransitivity; [|apply IH]. unfold extend.
  destruct (decide (key ∈ ks)); [reflexivity | now apply prefix_app_r].
Qed.

(** Seeding binds the key of each initial state to an object that it built
    and whose state has that key. *)
Lemma init_seeded_bound (self : FlyweightFactory) (initial : list pyset) (st : store)
    (key : string) :
  key ∈ get_key <$> initial ->
  exists (r : ref) (f : Flyweight),
    dict_get key (_flyweights (__init__ self initial st)) = Some r /\
    heap (__init__ self initial st) !! r = Some f /\
    get_key (shared_state f) = key /\
    length (heap st) <= r.
Proof.
  revert st. induction initial as [|s initial IH]; intros st Hin;
    [now apply elem_of_nil in Hin|].
  rewrite FlyweightRuns.init_step.
  destruct (decide (key ∈ get_key <$> initial)) as [Hlater|Hlast].
  - destruct (IH (FlyweightRuns.bind_new s st) Hlater) as (r & f & Hr & Hf & Hk & Hle).
    exists r, f. split; [exact Hr|]. split; [exact Hf|]. split; [exact Hk|].
    unfold FlyweightRuns.bind_new in Hle. simpl in Hle. rewrite length_app in Hle. lia.
  - assert (Hs : key = get_key s).
    { rewrite fmap_cons in Hin. apply elem_of_cons in Hin as [->|Hin];
        [reflexivity | contradiction]. }
    subst key. exists (length (heap st)), {| shared_state := s |}.
    rewrite (FlyweightProps.init_other self initial _ _ Hlast).
    split; [apply FlyweightProps.dict_get_set_eq|].
    split; [|split; [reflexivity | lia]].
    rewrite FlyweightRuns.init_grows. unfold FlyweightRuns.bind_new. simpl.
    rewrite <- app_assoc. rewrite lookup_app_r by reflexivity.
    now rewrite Nat.sub_diag.
Qed.

(** C9.  The cache is the class's.  For any two factory instances: a
    flyweight created through one (its key being new) is one more object
    and one more key; a request for it through the other returns that very
    object and reports the reuse, and [list_flyweights] through the other
    counts and lists it.  A state seeded when one was constructed is found,
    not built, by a request through the other, and the object found was
    built by that seeding and has the state's key.  [list_flyweights] prints
    the same count and the same keys through either and changes neither the
    heap nor the cache.  Constructing the second factory keeps the keys
    that the cache held, in their order and before its own, adds the keys
    of its initial states and no other, and never lowers the count. *)
Theorem factories_share_one_cache :
  forall f1 f2 : FlyweightFactory,
    (forall (state : pyset) (st : store),
        get_key state ∉ keys st ->
        fst (get_flyweight f1 state st) = Ok (length (heap st)) /\
        heap (snd (get_flyweight f1 state st)) = heap st ++ [{| shared_state := state |}] /\
        keys (snd (get_flyweight f1 state st)) = keys st ++ [get_key state] /\
        count (snd (get_flyweight f1 state st)) = S (count st) /\
        get_flyweight f2 state (snd (get_flyweight f1 state st)) =
          (Ok (length (heap st)),
           emit (print "FlyweightFactory: Reusing existing flyweight.")
             (snd (get_flyweight f1 state st))) /\
        stdout (list_flyweights f2 (snd (get_flyweight f1 state st))) =
          print_end (String.concat nl (keys st ++ [get_key state]))
            (print ("FlyweightFactory: I have " +:+ str_of_nat (S (count st)) +:+
                    " flyweights:")
               (stdout (snd (get_flyweight f1 state st))))) /\
    (forall (initial : list pyset) (st : store) (S : pyset),
        S ∈ initial ->
        exists (r : ref) (f : Flyweight),
          get_flyweight f2 S (__init__ f1 initial st) =
            (Ok r, emit (print "FlyweightFactory: Reusing existing flyweight.")
                     (__init__ f1 initial st)) /\
          heap (__init__ f1 initial st) !! r = Some f /\
          get_key (shared_state f) = get_key S /\
          length (heap st) <= r) /\
    (forall st : store,
        list_flyweights f2 st = list_flyweights f1 st /\
        heap (list_flyweights f2 st) = heap st /\
        _flyweights (list_flyweights f2 st) = _flyweights st /\
        stdout (list_flyweights f2 st) =
          print_end (String.concat nl (keys st))
            (print ("FlyweightFactory: I have " +:+ str_of_nat (count st) +:+ " flyweights:")
               (stdout st))) /\
    (forall (initial1 initial2 : list pyset) (st : store) (key : string),
        key ∈ keys (__init__ f2 initial2 (__init__ f1 initial1 st)) <->
        key ∈ keys st \/ key ∈ get_key <$> initial1 \/ key ∈ get_key <$> initial2) /\
    (forall (initial1 initial2 : list pyset) (st : store),
        keys (__init__ f1 initial1 st) `prefix_of`
          keys (__init__ f2 initial2 (__init__ f1 initial1 st)) /\
        count (__init__ f1 initial1 st) <=
          count (__init__ f2 initial2 (__init__ f1 initial1 st))).
Proof.
  intros f1 f2. split; [|split; [|split; [|split]]].
  - intros state st Hnew.
    assert (Hmiss : dict_get (get_key state) (_flyweights st) = None)
      by now apply FlyweightProps.dict_get_None.
    assert (Hkeys : keys (snd (get_flyweight f1 state st)) = keys st ++ [get_key state]).
    { rewrite FlyweightProps.get_flyweight_keys. unfold extend.
      now destruct (decide (get_key state ∈ keys st)). }
    assert (Hcount : count (snd (get_flyweight f1 state st)) = S (count st)).
    { rewrite !FlyweightProps.count_keys, Hkeys, length_app. simpl. lia. }
    assert (Hbound : dict_get (get_key state) (_flyweights (snd (get_flyweight f1 state st))) =
                     Some (length (heap st))).
    { rewrite (FlyweightProps.get_flyweight_miss f1 _ _ Hmiss). simpl.
      apply FlyweightProps.dict_get_set_eq. }
    split; [now rewrite (FlyweightProps.get_flyweight_miss f1 _ _ Hmiss)|].
    split; [now rewrite (FlyweightProps.get_flyweight_miss f1 _ _ Hmiss)|].
    split; [exact Hkeys|]. split; [exact Hcount|].
    split; [now apply FlyweightProps.get_flyweight_hit|].
    set (st1 := snd (get_flyweight f1 state st)) in *.
    change (print_end (String.concat nl (keys st1))
              (print ("FlyweightFactory: I have " +:+ str_of_nat (count st1) +:+
                      " flyweights:") (stdout st1)) =
            print_end (String.concat nl (keys st ++ [get_key state]))
              (print ("FlyweightFactory: I have " +:+ str_of_nat (S (count st)) +:+
                      " flyweights:") (stdout st1))).
    now rewrite Hcount, Hkeys.
  - intros initial st S HS.
    destruct (init_seeded_bound f1 initial st (get_key S)) as (r & f & Hr & Hf & Hk & Hle).
    { apply list_elem_of_fmap. eauto. }
    exists r, f. split; [now apply FlyweightProps.get_flyweight_hit | auto].
  - intros st. repeat split.
  - intros initial1 initial2 st key. rewrite !FlyweightProps.init_elem. tauto.
  - intros initial1 initial2 st. split.
    + rewrite (FlyweightProps.init_keys f2). apply extend_all_prefix.
    + apply FlyweightProps.init_length.
Qed.

End FlyweightSharing.

(* ===================================================================== *)
(** * What the objects of the scripts keep from one call to the next *)
(* ===================================================================== *)

Module StateAcrossCalls.
Import Py.







End StateAcrossCalls.
